(** * Threat-monitor dashboard: the [App] component of frontend/src/App.js

    A shallow embedding of the React component: the JavaScript values
    that travel from the HTTP responses into the component state, the
    two halves of the asynchronous [fetchData] closure, the effect that
    arms and clears the polling interval, the helper [getSeverityColor]
    and the JSX that [App] returns, followed by the properties of the
    polling loop and of the presenter.

    Conventions.
    - JSON numbers are modelled by integers ([Z]); the counters and
      timestamps of the service are integers.  The model is exact for
      the safe integers, which JavaScript holds exactly and prints in
      decimal digits; what is stated about the text of a number is
      stated for those.
    - Strings are sequences of 8-bit characters; [toLowerCase] and
      [toUpperCase] map the ASCII letters and leave every other
      character alone.  This is JavaScript's mapping on strings of
      ASCII characters; what is stated about letter case is stated for
      those.
    - An object is the list of its own enumerable properties in
      enumeration order, which is what [Object.entries] returns. *)

From Stdlib Require Import ZArith List String Ascii Bool Lia.
From Stdlib Require Import Numbers.DecimalString.

Set Warnings "-register-all".
Import ListNotations.
Open Scope string_scope.
Open Scope list_scope.

(** String concatenation, written apart from list append. *)
Infix "^^" := String.append (at level 60, right associativity).

(** ** JavaScript values *)

Inductive value : Type :=
| VUndefined
| VNull
| VBool (b : bool)
| VNum (n : Z)
| VStr (s : string)
| VArr (items : list value)
| VObj (fields : list (string * value)).

(** A thrown exception; only its [message] is ever read by the program. *)
Inductive result (A : Type) : Type :=
| Ok (a : A)
| Throw (message : string).
Arguments Ok {A} a.
Arguments Throw {A} message.

Definition bind {A B : Type} (r : result A) (k : A -> result B) : result B :=
  match r with
  | Ok a => k a
  | Throw m => Throw m
  end.

Declare Scope js_scope.
Delimit Scope js_scope with js.
Notation "x <- r ;; k" := (bind r (fun x => k))
  (at level 61, r at next level, right associativity) : js_scope.
Open Scope js_scope.

Fixpoint mapM {A B : Type} (f : A -> result B) (l : list A) : result (list B) :=
  match l with
  | [] => Ok []
  | a :: r => b <- f a ;; bs <- mapM f r ;; Ok (b :: bs)
  end.

(** ToBoolean. *)
Definition truthy (v : value) : bool :=
  match v with
  | VUndefined | VNull => false
  | VBool b => b
  | VNum n => negb (n =? 0)%Z
  | VStr s => negb (String.eqb s EmptyString)
  | VArr _ | VObj _ => true
  end.

(** [a || b]. *)
Definition js_or (a b : value) : value := if truthy a then a else b.

Definition nullish (v : value) : bool :=
  match v with
  | VUndefined | VNull => true
  | _ => false
  end.

(** Number to string, for integers. *)
Definition show_Z (n : Z) : string := NilEmpty.string_of_int (Z.to_int n).

Definition show_nat (n : nat) : string := show_Z (Z.of_nat n).

(** typeof-style description used in the engine's TypeError texts. *)
Definition show_nullish (v : value) : string :=
  match v with
  | VNull => "null"
  | _ => "undefined"
  end.

Fixpoint lookup (k : string) (fields : list (string * value)) : option value :=
  match fields with
  | [] => None
  | (k', v) :: rest => if String.eqb k k' then Some v else lookup k rest
  end.

(** [v.k] for a property name [k] that is neither an array index nor a
    member of a built-in prototype other than [length]: the names the
    program reads are threats, severity, timestamp, type, description,
    details, the four counters, and length. *)
Definition get_prop (v : value) (k : string) : result value :=
  match v with
  | VUndefined | VNull =>
      Throw ("Cannot read properties of " ^^ show_nullish v
             ^^ " (reading '" ^^ k ^^ "')")
  | VObj fields =>
      match lookup k fields with
      | Some x => Ok x
      | None => Ok VUndefined
      end
  | VArr items =>
      if String.eqb k "length" then Ok (VNum (Z.of_nat (List.length items)))
      else Ok VUndefined
  | VStr s =>
      if String.eqb k "length" then Ok (VNum (Z.of_nat (String.length s)))
      else Ok VUndefined
  | VBool _ | VNum _ => Ok VUndefined
  end.

(** [a === b] against a number literal. *)
Definition strict_eq_num (v : value) (n : Z) : bool :=
  match v with
  | VNum m => (m =? n)%Z
  | _ => false
  end.

(** ** Strings *)

Definition lower_ascii (c : ascii) : ascii :=
  let n := N_of_ascii c in
  if (65 <=? n)%N && (n <=? 90)%N then ascii_of_N (n + 32) else c.

Definition upper_ascii (c : ascii) : ascii :=
  let n := N_of_ascii c in
  if (97 <=? n)%N && (n <=? 122)%N then ascii_of_N (n - 32) else c.

Fixpoint map_string (f : ascii -> ascii) (s : string) : string :=
  match s with
  | EmptyString => EmptyString
  | String c r => String (f c) (map_string f r)
  end.

Definition toLowerCase (s : string) : string := map_string lower_ascii s.
Definition toUpperCase (s : string) : string := map_string upper_ascii s.

(** [v?.toLowerCase()] and [v?.toUpperCase()]: undefined for a nullish
    receiver, the mapped string for a string, and a TypeError for any
    other value, none of which has such a method.  [callee] is the
    source text of the callee, quoted in the message. *)
Definition opt_call_case (callee : string) (f : string -> string) (v : value)
  : result value :=
  match v with
  | VUndefined | VNull => Ok VUndefined
  | VStr s => Ok (VStr (f s))
  | _ => Throw (callee ^^ " is not a function")
  end.

Definition hex_digit (n : N) : ascii :=
  if (n <? 10)%N then ascii_of_N (48 + n) else ascii_of_N (87 + n).

(** The escapes of [JSON.stringify] for one character. *)
Definition json_escape (c : ascii) : string :=
  let n := N_of_ascii c in
  if (n =? 34)%N then String "\" (String c EmptyString)
  else if (n =? 92)%N then "\\"
  else if (n =? 8)%N then "\b"
  else if (n =? 9)%N then "\t"
  else if (n =? 10)%N then "\n"
  else if (n =? 12)%N then "\f"
  else if (n =? 13)%N then "\r"
  else if (n <? 32)%N then
    "\u00" ^^ String (hex_digit (n / 16)) (String (hex_digit (n mod 16)) EmptyString)
  else String c EmptyString.

Fixpoint json_quote_body (s : string) : string :=
  match s with
  | EmptyString => EmptyString
  | String c r => json_escape c ^^ json_quote_body r
  end.

Definition dquote : string := String (ascii_of_N 34) EmptyString.

Definition json_quote (s : string) : string :=
  dquote ^^ json_quote_body s ^^ dquote.

Fixpoint join (sep : string) (l : list string) : string :=
  match l with
  | [] => EmptyString
  | [x] => x
  | x :: r => x ^^ sep ^^ join sep r
  end.

(** [JSON.stringify v]: [None] is the JavaScript [undefined]. *)
Fixpoint JSON_stringify (v : value) : option string :=
  match v with
  | VUndefined => None
  | VNull => Some "null"
  | VBool true => Some "true"
  | VBool false => Some "false"
  | VNum n => Some (show_Z n)
  | VStr s => Some (json_quote s)
  | VArr items =>
      let parts :=
        (fix go (l : list value) : list string :=
           match l with
           | [] => []
           | x :: r =>
               match JSON_stringify x with
               | Some t => t
               | None => "null"
               end :: go r
           end) items in
      Some ("[" ^^ join "," parts ^^ "]")
  | VObj fields =>
      let parts :=
        (fix go (l : list (string * value)) : list string :=
           match l with
           | [] => []
           | (k, x) :: r =>
               match JSON_stringify x with
               | Some t => (json_quote k ^^ ":" ^^ t) :: go r
               | None => go r
               end
           end) fields in
      Some ("{" ^^ join "," parts ^^ "}")
  end.

Definition stringify_value (v : value) : value :=
  match JSON_stringify v with
  | Some s => VStr s
  | None => VUndefined
  end.

(** The characters of a string, one entry per 8-bit character: the
    code units of the string when it is made of ASCII characters. *)
Fixpoint string_chars (s : string) : list value :=
  match s with
  | EmptyString => []
  | String c r => VStr (String c EmptyString) :: string_chars r
  end.

Fixpoint index_from (i : nat) (l : list value) : list (string * value) :=
  match l with
  | [] => []
  | x :: r => (show_nat i, x) :: index_from (S i) r
  end.

(** [Object.entries v]. *)
Definition Object_entries (v : value) : result (list (string * value)) :=
  match v with
  | VUndefined | VNull => Throw "Cannot convert undefined or null to object"
  | VObj fields => Ok fields
  | VArr items => Ok (index_from 0 items)
  | VStr s => Ok (index_from 0 (string_chars s))
  | VBool _ | VNum _ => Ok []
  end.

(** ** React elements and the rendered tree *)

Definition style : Type := list (string * string).

(** What a JSX expression evaluates to.  [EVal] is an embedded
    JavaScript value, [EList] an array of elements ([key] props, which
    leave no trace in the output, are not recorded). *)
Inductive element : Type :=
| EText (s : string)
| EVal (v : value)
| EList (items : list element)
| EElem (tag : string) (st : style) (children : list element).

(** The tree React commits to the page. *)
Inductive node : Type :=
| Text (s : string)
| Elem (tag : string) (st : style) (children : list node).

(** A value in child position: null, undefined and booleans render
    nothing, numbers and non-empty strings render as text, arrays are
    flattened, and a plain object is rejected by React. *)
Fixpoint child_of_value (v : value) : result (list node) :=
  match v with
  | VUndefined | VNull | VBool _ => Ok []
  | VNum n => Ok [Text (show_Z n)]
  | VStr s => if String.eqb s EmptyString then Ok [] else Ok [Text s]
  | VArr items =>
      (fix go (l : list value) : result (list node) :=
         match l with
         | [] => Ok []
         | x :: r => a <- child_of_value x ;; b <- go r ;; Ok (a ++ b)
         end) items
  | VObj _ => Throw "Objects are not valid as a React child"
  end.

Fixpoint reconcile (e : element) : result (list node) :=
  let children :=
    fix go (l : list element) : result (list node) :=
      match l with
      | [] => Ok []
      | x :: r => a <- reconcile x ;; b <- go r ;; Ok (a ++ b)
      end in
  match e with
  | EText s => Ok [Text s]
  | EVal v => child_of_value v
  | EList items => children items
  | EElem tag st cs => ns <- children cs ;; Ok [Elem tag st ns]
  end.

(** ** The browser

    What the component reads from outside its own state: the locale
    and time zone through [Date.prototype.toLocaleString] and
    [toLocaleTimeString].  The wall clock itself ([new Date()]) is a
    separate argument of the render function. *)
Record host : Type := mkHost {
  (** [new Date(v).toLocaleString()] *)
  dateToLocaleString : value -> string;
  (** [new Date(ms).toLocaleTimeString()] for a clock reading [ms] *)
  clockToLocaleTimeString : Z -> string
}.

(** ** Component state, lines 7-10 *)

Record state : Type := mkState {
  threats : value;
  summary : value;
  loading : bool;
  error : value
}.

Definition initial_state : state :=
  {| threats := VArr []; summary := VNull; loading := true; error := VNull |}.

Definition API_BASE : string := "http://localhost:8001".

(** ** Presenter, lines 38-150 *)

(** ToPrimitive on a value parsed from JSON.  A primitive is its own
    result.  An object inherits [valueOf] and [toString] from its
    prototype unless the payload gave it an own property of that name,
    which is then not callable; the conversion ends in a string unless
    [toString] is shadowed in this way.  An array is joined, which
    converts each element that is not null in the same way. *)
Fixpoint to_primitive_ok (v : value) : bool :=
  match v with
  | VObj fields =>
      match lookup "toString" fields with
      | Some _ => false
      | None => true
      end
  | VArr items =>
      (fix all (l : list value) : bool :=
         match l with
         | [] => true
         | x :: r => to_primitive_ok x && all r
         end) items
  | _ => true
  end.

(** Lines 38-40.  [new Date(timestamp)] converts its argument to a
    primitive first and throws when that is not possible; the rest is
    the browser's. *)
Definition formatTimestamp (h : host) (timestamp : value) : result string :=
  if to_primitive_ok timestamp then Ok (dateToLocaleString h timestamp)
  else Throw "Cannot convert object to primitive value".

Definition getSeverityColor (severity : value) : result string :=
  key <- opt_call_case "severity?.toLowerCase" toLowerCase severity ;;
  Ok (match key with
      | VStr k =>
          if String.eqb k "critical" then "#ff4444"
          else if String.eqb k "high" then "#ff8800"
          else if String.eqb k "medium" then "#ffaa00"
          else if String.eqb k "low" then "#88aa00"
          else "#888888"
      | _ => "#888888"
      end).

Definition page_style : style :=
  [("background", "#0a0a0a"); ("color", "#fff"); ("minHeight", "100vh");
   ("padding", "20px"); ("fontFamily", "monospace")].

Definition centered_style : style :=
  [("textAlign", "center"); ("marginTop", "100px")].

Definition error_view (err : value) : element :=
  EElem "div" page_style
    [EElem "div" centered_style
       [EElem "h1" [("color", "#ff4444")] [EText "Connection Error"];
        EElem "p" [] [EVal err];
        EElem "p" [("color", "#888")]
          [EText "Make sure the backend is running at "; EVal (VStr API_BASE)]]].

Definition loading_view : element :=
  EElem "div" page_style
    [EElem "div" centered_style
       [EElem "h1" [("color", "#00ff88")] [EText "Loading threat data..."]]].

Definition counter_style : style :=
  [("background", "#1a1a1a"); ("padding", "15px"); ("borderRadius", "8px");
   ("textAlign", "center")].

Definition counter_cell (color : string) (count : value) (label : string)
  : element :=
  EElem "div" counter_style
    [EElem "div"
       [("fontSize", "2rem"); ("color", color); ("fontWeight", "bold")]
       [EVal (js_or count (VNum 0))];
     EElem "div" [("color", "#888")] [EText label]].

Definition grid_style : style :=
  [("display", "grid");
   ("gridTemplateColumns", "repeat(auto-fit, minmax(150px, 1fr))");
   ("gap", "15px"); ("marginBottom", "30px")].

(** Lines 82-101: [{summary && (<div> ... </div>)}]. *)
Definition summary_grid (summary : value) : result element :=
  if truthy summary then
    total <- get_prop summary "total_threats" ;;
    critical <- get_prop summary "critical_threats" ;;
    blocked <- get_prop summary "blocked_connections" ;;
    processes <- get_prop summary "monitored_processes" ;;
    Ok (EElem "div" grid_style
          [counter_cell "#00ff88" total "Total Threats";
           counter_cell "#ff4444" critical "Critical";
           counter_cell "#0088ff" blocked "Blocked";
           counter_cell "#ffaa00" processes "Processes"])
  else Ok (EVal summary).

Definition details_style : style :=
  [("background", "#0f0f0f"); ("border", "1px solid #2a2a2a");
   ("borderRadius", "4px"); ("padding", "10px"); ("fontSize", "14px")].

Definition detail_row (kv : string * value) : element :=
  EElem "div" [("marginBottom", "5px"); ("color", "#aaa")]
    [EElem "strong" [] [EVal (VStr (fst kv)); EText ":"];
     EText " ";
     EVal (stringify_value (snd kv))].

(** Lines 136-144: [{threat.details && (<div> ... </div>)}]. *)
Definition details_block (threat : value) : result element :=
  details <- get_prop threat "details" ;;
  if truthy details then
    entries <- Object_entries details ;;
    Ok (EElem "div" details_style [EList (map detail_row entries)])
  else Ok (EVal details).

(** Line 124: [{threat.severity?.toUpperCase() || 'UNKNOWN'}], as a
    function of the value of [threat.severity]. *)
Definition severity_text (severity : value) : result value :=
  upper <- opt_call_case "threat.severity?.toUpperCase" toUpperCase severity ;;
  Ok (js_or upper (VStr "UNKNOWN")).

Definition severity_label (threat : value) : result value :=
  severity <- get_prop threat "severity" ;;
  severity_text severity.

Definition badge_style (color : string) : style :=
  [("background", color); ("color", "#fff"); ("padding", "4px 12px");
   ("borderRadius", "20px"); ("fontSize", "12px"); ("fontWeight", "bold")].

Definition card_style : style :=
  [("background", "#1a1a1a"); ("border", "1px solid #333");
   ("borderRadius", "8px"); ("padding", "20px")].

(** Lines 114-145: the callback of [threats.map]. *)
Definition threat_card (h : host) (threat : value) : result element :=
  severity <- get_prop threat "severity" ;;
  color <- getSeverityColor severity ;;
  label <- severity_label threat ;;
  timestamp <- get_prop threat "timestamp" ;;
  stamp <- formatTimestamp h timestamp ;;
  type <- get_prop threat "type" ;;
  description <- get_prop threat "description" ;;
  details <- details_block threat ;;
  Ok (EElem "div" card_style
        [EElem "div"
           [("display", "flex"); ("justifyContent", "space-between");
            ("alignItems", "center"); ("marginBottom", "10px")]
           [EElem "span" (badge_style color) [EVal label];
            EElem "span" [("color", "#888"); ("fontSize", "14px")]
              [EVal (VStr stamp)]];
         EElem "div"
           [("fontSize", "1.2rem"); ("fontWeight", "bold");
            ("color", "#ff8800"); ("marginBottom", "8px")]
           [EVal type];
         EElem "div"
           [("color", "#ccc"); ("lineHeight", "1.5"); ("marginBottom", "15px")]
           [EVal description];
         details]).

(** [threats.map(callback)]: only an array has a [map] method. *)
Definition threats_map (f : value -> result element) (threats : value)
  : result (list element) :=
  match threats with
  | VArr items => mapM f items
  | VUndefined | VNull => _ <- get_prop threats "map" ;; Ok []
  | _ => Throw "threats.map is not a function"
  end.

Definition empty_banner : element :=
  EElem "div"
    [("textAlign", "center"); ("padding", "40px"); ("color", "#00ff88");
     ("background", "#0a2a0a"); ("borderRadius", "8px");
     ("border", "1px solid #004400")]
    [EText "🎉 No active threats detected"].

(** Lines 74-150: the third [return]; [now] is the reading of the wall
    clock taken by [new Date()] on line 78. *)
Definition dashboard (h : host) (now : Z) (s : state) : result element :=
  grid <- summary_grid (summary s) ;;
  count <- get_prop (threats s) "length" ;;            (* line 104 *)
  len <- get_prop (threats s) "length" ;;              (* line 107 *)
  body <- (if strict_eq_num len 0 then Ok empty_banner
           else cards <- threats_map (threat_card h) (threats s) ;;
                Ok (EElem "div"
                      [("display", "flex"); ("flexDirection", "column");
                       ("gap", "15px")]
                      [EList cards])) ;;
  Ok (EElem "div" page_style
        [EElem "h1" [("color", "#00ff88"); ("marginBottom", "20px")]
           [EText "🛡️ Cybersecurity Threat Monitor"];
         EElem "div"
           [("marginBottom", "20px"); ("fontSize", "14px"); ("color", "#888")]
           [EText "Last updated: ";
            EVal (VStr (clockToLocaleTimeString h now));
            EText " | Auto-refresh every 5s";
            if loading s
            then EElem "span" [("color", "#00ff88")] [EText " (Refreshing...)"]
            else EVal (VBool false)];
         grid;
         EElem "h2"
           [("color", "#00ff88"); ("borderLeft", "4px solid #00ff88");
            ("paddingLeft", "10px"); ("marginBottom", "20px")]
           [EText "Recent Threats ("; EVal count; EText ")"];
         body]).

(** The function component's body after the hooks, lines 52-150. *)
Definition App (h : host) (now : Z) (s : state) : result element :=
  if truthy (error s) then Ok (error_view (error s))
  else
    first_load <-
      (if loading s
       then len <- get_prop (threats s) "length" ;; Ok (strict_eq_num len 0)
       else Ok false) ;;
    if (first_load : bool) then Ok loading_view
    else dashboard h now s.

(** What ends up on the page: the element tree after React has
    normalised the children. *)
Definition render (h : host) (now : Z) (s : state) : result (list node) :=
  e <- App h now s ;; reconcile e.

(** ** The asynchronous closure [fetchData], lines 13-31 *)

(** The calls the closure makes on the outside world: the four state
    setters returned by [useState], [axios.get] and [console.error]. *)
Inductive call : Type :=
| SetThreats (v : value)
| SetSummary (v : value)
| SetLoading (b : bool)
| SetError (v : value)
| AxiosGet (url : string)
| ConsoleError (label : string) (message : string).

(** A piece of straight-line JavaScript: the calls made, in order, and
    how the piece completed. *)
Definition prog (A : Type) : Type := (list call * result A)%type.

Definition lift {A : Type} (r : result A) : prog A := ([], r).

Definition perform (c : call) : prog unit := ([c], Ok tt).

Definition pbind {A B : Type} (p : prog A) (k : A -> prog B) : prog B :=
  match p with
  | (cs, Ok a) => let (cs', r) := k a in (cs ++ cs', r)
  | (cs, Throw m) => (cs, Throw m)
  end.

Declare Scope prog_scope.
Delimit Scope prog_scope with prog.
Notation "x <-- p ;; k" := (pbind p (fun x => k))
  (at level 61, p at next level, right associativity) : prog_scope.
Notation "p ;;; k" := (pbind p (fun _ => k))
  (at level 61, right associativity) : prog_scope.

(** [try { body } catch (err) { handler } finally { final }], where the
    handler reads [err.message]. *)
Definition try_catch_finally (body : prog unit) (handler : string -> prog unit)
    (final : prog unit) : prog unit :=
  let caught :=
    match body with
    | (cs, Ok tt) => (cs, Ok tt)
    | (cs, Throw m) => let (cs', r) := handler m in (cs ++ cs', r)
    end in
  match caught, final with
  | (cs, r), (fs, Ok tt) => (cs ++ fs, r)
  | (cs, _), (fs, Throw m) => (cs ++ fs, Throw m)
  end.

(** How one request ended: [Fulfilled data] carries [response.data],
    [Rejected message] the [message] of the error axios rejected with
    (transport failure, status outside 2xx). *)
Inductive settled : Type :=
| Fulfilled (data : value)
| Rejected (message : string).

(** The two requests of one cycle.  [Promise.all] rejects with the
    rejection that happens first; [summaryFirst] says that the summary
    request was the first of the two to reject. *)
Record settlement : Type := mkSettlement {
  threatsRes : settled;
  summaryRes : settled;
  summaryFirst : bool
}.

Definition Promise_all (o : settlement) : result (value * value) :=
  match threatsRes o, summaryRes o with
  | Fulfilled t, Fulfilled s => Ok (t, s)
  | Rejected m, Fulfilled _ => Throw m
  | Fulfilled _, Rejected m => Throw m
  | Rejected mt, Rejected ms => Throw (if summaryFirst o then ms else mt)
  end.

Definition threats_url : string := API_BASE ^^ "/api/threats".
Definition summary_url : string := API_BASE ^^ "/api/dashboard/summary".

(** Lines 15-21, up to the [await]: everything [fetchData()] does
    before it returns its promise to the caller.  None of these calls
    can throw, so the [try] opened on line 14 plays no part yet. *)
Definition fetchData_start : list call :=
  [SetLoading true; SetError VNull; AxiosGet threats_url; AxiosGet summary_url].

Open Scope prog_scope.

(** Lines 18-24, from the [await] on: the rest of the [try] block once
    [Promise.all] has settled. *)
Definition try_block (o : settlement) : prog unit :=
  responses <-- lift (Promise_all o) ;;
  let (threatsData, summaryData) := (responses : value * value) in
  fetched <-- lift (get_prop threatsData "threats") ;;
  perform (SetThreats (js_or fetched (VArr []))) ;;;
  perform (SetSummary (js_or summaryData (VObj []))).

(** Lines 25-27. *)
Definition catch_block (message : string) : prog unit :=
  perform (SetError (VStr ("Failed to fetch data: " ^^ message))) ;;;
  perform (ConsoleError "API Error:" message).

(** Lines 28-30. *)
Definition finally_block : prog unit := perform (SetLoading false).

(** What a suspended [fetchData] does when it is resumed. *)
Definition fetchData_resume (o : settlement) : prog unit :=
  try_catch_finally (try_block o) catch_block finally_block.

Close Scope prog_scope.

(** ** React and the event loop

    The component instance as the runtime sees it.  A state setter
    called while the instance is live updates the slot and schedules a
    render; React ignores a setter called on an instance that has been
    unmounted (the update is dropped, nothing is rendered). *)
Inductive phase : Type := Fresh | Live | Gone.

Record world : Type := mkWorld {
  ui : state;
  life : phase;
  (** the interval armed on line 34 is still armed *)
  interval : bool;
  (** fetch cycles suspended at their [await] *)
  pending : nat;
  (** URLs requested so far, oldest first *)
  network : list string;
  (** messages passed to [console.error], oldest first *)
  console : list string;
  (** state updates React has accepted, each of which schedules a render *)
  updates : nat
}.

Definition initial_world : world :=
  {| ui := initial_state; life := Fresh; interval := false; pending := 0;
     network := []; console := []; updates := 0 |}.

(** The effect of a setter on the slots. *)
Definition apply_call (c : call) (s : state) : state :=
  match c with
  | SetThreats v =>
      {| threats := v; summary := summary s; loading := loading s; error := error s |}
  | SetSummary v =>
      {| threats := threats s; summary := v; loading := loading s; error := error s |}
  | SetLoading b =>
      {| threats := threats s; summary := summary s; loading := b; error := error s |}
  | SetError v =>
      {| threats := threats s; summary := summary s; loading := loading s; error := v |}
  | AxiosGet _ | ConsoleError _ _ => s
  end.

Definition apply_calls (cs : list call) (s : state) : state :=
  fold_left (fun s c => apply_call c s) cs s.

Definition with_ui (w : world) (s : state) (n : nat) : world :=
  {| ui := s; life := life w; interval := interval w; pending := pending w;
     network := network w; console := console w; updates := n |}.

(** One call, executed against the runtime. *)
Definition exec_call (c : call) (w : world) : world :=
  match c with
  | AxiosGet url =>
      {| ui := ui w; life := life w; interval := interval w;
         pending := pending w; network := network w ++ [url];
         console := console w; updates := updates w |}
  | ConsoleError label message =>
      {| ui := ui w; life := life w; interval := interval w;
         pending := pending w; network := network w;
         console := console w ++ [label ^^ " " ^^ message];
         updates := updates w |}
  | _ =>
      match life w with
      | Live => with_ui w (apply_call c (ui w)) (S (updates w))
      | Fresh | Gone => w
      end
  end.

Definition exec_calls (cs : list call) (w : world) : world :=
  fold_left (fun w c => exec_call c w) cs w.

Definition set_pending (w : world) (n : nat) : world :=
  {| ui := ui w; life := life w; interval := interval w; pending := n;
     network := network w; console := console w; updates := updates w |}.

Definition set_life (w : world) (p : phase) (armed : bool) : world :=
  {| ui := ui w; life := p; interval := armed; pending := pending w;
     network := network w; console := console w; updates := updates w |}.

(** [fetchData()] as called on line 33 and by the interval. *)
Definition call_fetchData (w : world) : world :=
  let w' := exec_calls fetchData_start w in
  set_pending w' (S (pending w')).

Inductive event : Type :=
| Mount                       (* the effect of lines 12-36 runs *)
| Tick                        (* the interval fires *)
| Settle (o : settlement)     (* a suspended [fetchData] is resumed *)
| Unmount.                    (* the cleanup of line 35 runs *)

(** [None]: the event cannot happen in this world. *)
Definition step (e : event) (w : world) : option world :=
  match e with
  | Mount =>
      match life w with
      | Fresh => Some (call_fetchData (set_life w Live true))
      | _ => None
      end
  | Tick =>
      if interval w then Some (call_fetchData w) else None
  | Settle o =>
      match pending w with
      | O => None
      | S n => Some (exec_calls (fst (fetchData_resume o)) (set_pending w n))
      end
  | Unmount =>
      match life w with
      | Live => Some (set_life w Gone false)
      | _ => None
      end
  end.

Fixpoint run (es : list event) (w : world) : option world :=
  match es with
  | [] => Some w
  | e :: rest =>
      match step e w with
      | Some w' => run rest w'
      | None => None
      end
  end.

(** The reconciler proper: what one settled cycle does to the slots of
    a live component. *)
Definition reconcile_state (o : settlement) (s : state) : state :=
  apply_calls (fst (fetchData_resume o)) s.

Definition dispatch_state (s : state) : state :=
  apply_calls fetchData_start s.

(** A whole cycle with nothing in between: dispatch, then settlement. *)
Definition fetch_cycle (o : settlement) (s : state) : state :=
  reconcile_state o (dispatch_state s).

(** The cycle failed when the [try] block threw, so that the [catch]
    block ran. *)
Definition cycle_failed (o : settlement) : bool :=
  match snd (try_block o) with
  | Ok _ => false
  | Throw _ => true
  end.

Definition is_rejected (r : settled) : bool :=
  match r with
  | Rejected _ => true
  | Fulfilled _ => false
  end.

(** ** A sample browser

    The locale en-US in the UTC time zone, for the closed examples.
    Its [Date] reads epoch milliseconds and instants written
    YYYY-MM-DDTHH:MM:SSZ; any other timestamp is an invalid date. *)
Module SampleHost.
Open Scope Z_scope.

Definition pad2 (n : Z) : string :=
  if n <? 10 then "0" ^^ show_Z n else show_Z n.

Definition time_string (ms : Z) : string :=
  let secs := (ms / 1000) mod 86400 in
  let h := secs / 3600 in
  let h12 := if h mod 12 =? 0 then 12 else h mod 12 in
  show_Z h12 ^^ ":" ^^ pad2 ((secs / 60) mod 60) ^^ ":" ^^ pad2 (secs mod 60)
  ^^ (if h <? 12 then " AM" else " PM").

(** Gregorian date of a day number counted from 1970-01-01. *)
Definition civil_from_days (days : Z) : Z * Z * Z :=
  let z := days + 719468 in
  let era := z / 146097 in
  let doe := z - era * 146097 in
  let yoe := (doe - doe / 1460 + doe / 36524 - doe / 146096) / 365 in
  let doy := doe - (365 * yoe + yoe / 4 - yoe / 100) in
  let mp := (5 * doy + 2) / 153 in
  let d := doy - (153 * mp + 2) / 5 + 1 in
  let m := if mp <? 10 then mp + 3 else mp - 9 in
  let y := yoe + era * 400 + (if m <=? 2 then 1 else 0) in
  (y, m, d).

Definition days_from_civil (y m d : Z) : Z :=
  let y' := if m <=? 2 then y - 1 else y in
  let era := y' / 400 in
  let yoe := y' - era * 400 in
  let doy := (153 * (if 2 <? m then m - 3 else m + 9) + 2) / 5 + d - 1 in
  let doe := yoe * 365 + yoe / 4 - yoe / 100 + doy in
  era * 146097 + doe - 719468.

Definition date_string (ms : Z) : string :=
  let '(y, m, d) := civil_from_days (ms / 86400000) in
  show_Z m ^^ "/" ^^ show_Z d ^^ "/" ^^ show_Z y.

Definition locale_string (ms : Z) : string :=
  date_string ms ^^ ", " ^^ time_string ms.

Definition digit (c : ascii) : option Z :=
  let n := Z.of_N (N_of_ascii c) in
  if (48 <=? n) && (n <=? 57) then Some (n - 48) else None.

Fixpoint digits (s : string) (acc : Z) : option Z :=
  match s with
  | EmptyString => Some acc
  | String c r =>
      match digit c with
      | Some d => digits r (10 * acc + d)
      | None => None
      end
  end.

Definition field (s : string) (start len : nat) : option Z :=
  digits (substring start len s) 0.

Definition parse_iso (s : string) : option Z :=
  if negb (Nat.eqb (String.length s) 20) then None
  else if negb (String.eqb (substring 4 1 s) "-"
                && String.eqb (substring 7 1 s) "-"
                && String.eqb (substring 10 1 s) "T"
                && String.eqb (substring 13 1 s) ":"
                && String.eqb (substring 16 1 s) ":"
                && String.eqb (substring 19 1 s) "Z") then None
  else
    match field s 0 4, field s 5 2, field s 8 2,
          field s 11 2, field s 14 2, field s 17 2 with
    | Some y, Some mo, Some d, Some h, Some mi, Some se =>
        if (1 <=? mo) && (mo <=? 12) && (1 <=? d) && (d <=? 31)
           && (h <=? 23) && (mi <=? 59) && (se <=? 59)
        then Some (((days_from_civil y mo d * 24 + h) * 60 + mi) * 60000
                   + se * 1000)
        else None
    | _, _, _, _, _, _ => None
    end.

(** The time value of [new Date(v)]. *)
Definition time_value (v : value) : option Z :=
  match v with
  | VNum n => Some n
  | VStr s => parse_iso s
  | VNull => Some 0
  | VBool b => Some (if b then 1 else 0)
  | VUndefined | VArr _ | VObj _ => None
  end.

Definition en_US_UTC : host :=
  {| dateToLocaleString := fun v =>
       match time_value v with
       | Some ms => locale_string ms
       | None => "Invalid Date"
       end;
     clockToLocaleTimeString := time_string |}.
End SampleHost.

(** ** Vocabulary of the properties *)

(** The three render modes of the presenter. *)
Inductive view : Type := ErrorView | LoadingView | DashboardView.

Definition is_empty_array (v : value) : bool :=
  match v with
  | VArr [] => true
  | _ => false
  end.

(** The precedence rule as the design states it: the error view when
    [error] is set, else the loading placeholder when [loading] is true
    and [threats] is empty, else the dashboard. *)
Definition select_view (s : state) : view :=
  if negb (nullish (error s)) then ErrorView
  else if loading s && is_empty_array (threats s) then LoadingView
  else DashboardView.

Definition show_view (h : host) (now : Z) (s : state) (v : view)
  : result element :=
  match v with
  | ErrorView => Ok (error_view (error s))
  | LoadingView => Ok loading_view
  | DashboardView => dashboard h now s
  end.

Definition failure_message (v : value) : Prop :=
  exists m, v = VStr ("Failed to fetch data: " ^^ m).

(** The shape of the slots in the data model: [threats] is a sequence
    and [error] is unset or a failure message. *)
Definition well_formed (s : state) : Prop :=
  (exists items, threats s = VArr items)
  /\ (error s = VNull \/ failure_message (error s)).

(** A settlement honours the HTTP contract when the [threats] field of
    a successful threats payload is an array or is missing. *)
Definition honours_contract (o : settlement) : Prop :=
  match threatsRes o with
  | Fulfilled data =>
      match get_prop data "threats" with
      | Ok (VArr _) | Ok VUndefined | Throw _ => True
      | Ok _ => False
      end
  | Rejected _ => True
  end.

Definition event_honours_contract (e : event) : Prop :=
  match e with
  | Settle o => honours_contract o
  | _ => True
  end.

(** The colour table as the design states it, keyed by the lower-case
    severity name, with gray for everything else. *)
Inductive colour : Type := Red | Orange | Amber | Olive | Gray.

Definition colour_code (c : colour) : string :=
  match c with
  | Red => "#ff4444"
  | Orange => "#ff8800"
  | Amber => "#ffaa00"
  | Olive => "#88aa00"
  | Gray => "#888888"
  end.

Definition palette : list (string * colour) :=
  [("critical", Red); ("high", Orange); ("medium", Amber); ("low", Olive)].

Fixpoint palette_find (k : string) (table : list (string * colour)) : colour :=
  match table with
  | [] => Gray
  | (name, c) :: rest => if String.eqb k name then c else palette_find k rest
  end.

(** [None] is an absent severity. *)
Definition severity_colour (severity : option string) : colour :=
  match severity with
  | None => Gray
  | Some s => palette_find (toLowerCase s) palette
  end.

Definition severity_value (severity : option string) : value :=
  match severity with
  | None => VUndefined
  | Some s => VStr s
  end.

Fixpoint style_eqb (a b : style) : bool :=
  match a, b with
  | [], [] => true
  | (k, v) :: ra, (k', v') :: rb =>
      String.eqb k k' && String.eqb v v' && style_eqb ra rb
  | _, _ => false
  end.

(** Some element of the rendered tree carries the style [st]. *)
Fixpoint styled (st : style) (n : node) : bool :=
  match n with
  | Text _ => false
  | Elem _ st' children =>
      style_eqb st st'
      || (fix any (l : list node) : bool :=
            match l with
            | [] => false
            | x :: r => styled st x || any r
            end) children
  end.

Definition any_styled (st : style) (ns : list node) : bool :=
  existsb (styled st) ns.

(** The page shows the summary-counter grid. *)
Definition shows_grid (page : list node) : bool := any_styled grid_style page.

(** One threat card as it reaches the page. *)
Definition card_nodes (h : host) (threat : value) : result (list node) :=
  e <- threat_card h threat ;; reconcile e.

(** The grid slot of the dashboard as it reaches the page. *)
Definition grid_nodes (summary : value) : result (list node) :=
  e <- summary_grid summary ;; reconcile e.

(** React's treatment of a list of children, as a function of its own. *)
Fixpoint reconcile_all (l : list element) : result (list node) :=
  match l with
  | [] => Ok []
  | x :: r => a <- reconcile x ;; b <- reconcile_all r ;; Ok (a ++ b)
  end.

(** Some element of the JSX tree carries the style [st]. *)
Fixpoint estyled (st : style) (e : element) : bool :=
  let any :=
    fix any (l : list element) : bool :=
      match l with
      | [] => false
      | x :: r => estyled st x || any r
      end in
  match e with
  | EText _ | EVal _ => false
  | EList items => any items
  | EElem _ st' children => style_eqb st st' || any children
  end.

(** The text of one counter of the grid as it reaches the page. *)
Definition counter_text (summary : value) (name : string)
  : result (list node) :=
  count <- get_prop summary name ;; child_of_value (js_or count (VNum 0)).

Definition counter_node (color : string) (text : list node) (label : string)
  : node :=
  Elem "div" counter_style
    [Elem "div" [("fontSize", "2rem"); ("color", color); ("fontWeight", "bold")]
       text;
     Elem "div" [("color", "#888")] [Text label]].

(** Whether the page committed for a state shows the grid; [None] when
    rendering throws. *)
Definition page_shows_grid (h : host) (now : Z) (s : state) : option bool :=
  match render h now s with
  | Ok page => Some (shows_grid page)
  | Throw _ => None
  end.

(** ** Vocabulary of the further properties *)

Definition throws {A : Type} (r : result A) : bool :=
  match r with
  | Ok _ => false
  | Throw _ => true
  end.

Definition is_string (v : value) : bool :=
  match v with
  | VStr _ => true
  | _ => false
  end.

(** A value that is neither an array nor an object. *)
Definition scalar (v : value) : bool :=
  match v with
  | VArr _ | VObj _ => false
  | _ => true
  end.

(** The string is made of ASCII characters only.  On such strings the
    case mappings of the model are those of JavaScript. *)
Fixpoint is_ascii (s : string) : bool :=
  match s with
  | EmptyString => true
  | String c r => (N_of_ascii c <? 128)%N && is_ascii r
  end.

(** The integers that a JavaScript number holds exactly and prints in
    plain decimal notation. *)
Definition safe_integer (n : Z) : bool :=
  (Z.abs n <=? 9007199254740991)%Z.

(** Every number inside the value is a safe integer. *)
Fixpoint numbers_safe (v : value) : bool :=
  match v with
  | VNum n => safe_integer n
  | VArr items =>
      (fix all (l : list value) : bool :=
         match l with
         | [] => true
         | x :: r => numbers_safe x && all r
         end) items
  | VObj fields =>
      (fix all (l : list (string * value)) : bool :=
         match l with
         | [] => true
         | (_, x) :: r => numbers_safe x && all r
         end) fields
  | _ => true
  end.

(** The event calls [fetchData]. *)
Definition dispatches (e : event) : bool :=
  match e with
  | Mount | Tick => true
  | _ => false
  end.

Definition settles (e : event) : bool :=
  match e with
  | Settle _ => true
  | _ => false
  end.

Definition count_events (p : event -> bool) (es : list event) : nat :=
  List.length (filter p es).

(** The requests a run of events sends, oldest first. *)
Definition requests_of (es : list event) : list string :=
  flat_map (fun e => if dispatches e then [threats_url; summary_url] else [])
           es.

(** What a settlement writes to the console. *)
Definition logged (o : settlement) : list string :=
  match snd (try_block o) with
  | Ok _ => []
  | Throw m => ["API Error: " ^^ m]
  end.

(** The text node of a string in child position. *)
Definition text_nodes (s : string) : list node :=
  if String.eqb s EmptyString then [] else [Text s].

Definition json_nodes (v : value) : list node :=
  match JSON_stringify v with
  | Some j => text_nodes j
  | None => []
  end.

(** One row of the details block as it reaches the page. *)
Definition detail_row_node (kv : string * value) : node :=
  Elem "div" [("marginBottom", "5px"); ("color", "#aaa")]
    ([Elem "strong" [] (text_nodes (fst kv) ++ [Text ":"]); Text " "]
     ++ json_nodes (snd kv)).

(** The field [k] of [v] can be read and satisfies [p]. *)
Definition field_is (p : value -> bool) (v : value) (k : string) : bool :=
  match get_prop v k with
  | Ok x => p x
  | Throw _ => false
  end.

(** A threat of the data model: an optional string [severity], a
    [timestamp] that converts to a primitive, and scalar [type] and
    [description]; [details] is free. *)
Definition threat_ok (t : value) : bool :=
  negb (nullish t)
  && field_is (fun v => nullish v || is_string v) t "severity"
  && field_is to_primitive_ok t "timestamp"
  && field_is scalar t "type"
  && field_is scalar t "description".

(** A summary of the data model: null, or a value whose four counters
    are scalars or absent. *)
Definition summary_ok (sm : value) : bool :=
  negb (truthy sm)
  || (field_is scalar sm "total_threats"
      && field_is scalar sm "critical_threats"
      && field_is scalar sm "blocked_connections"
      && field_is scalar sm "monitored_processes").

Definition state_ok (s : state) : bool :=
  match threats s with
  | VArr items => forallb threat_ok items
  | _ => false
  end
  && summary_ok (summary s)
  && scalar (error s).

(** The heading of the threat list and the list itself, as written on
    lines 103-105 and 112-147. *)
Definition threats_heading (count : value) : element :=
  EElem "h2"
    [("color", "#00ff88"); ("borderLeft", "4px solid #00ff88");
     ("paddingLeft", "10px"); ("marginBottom", "20px")]
    [EText "Recent Threats ("; EVal count; EText ")"].

Definition card_list (cards : list element) : element :=
  EElem "div"
    [("display", "flex"); ("flexDirection", "column"); ("gap", "15px")]
    [EList cards].

(** What holds of the slots at every moment of the component's life. *)
Definition slots_invariant (s : state) : Prop :=
  (error s = VNull \/ failure_message (error s))
  /\ (summary s = VNull \/ truthy (summary s) = true)
  /\ truthy (threats s) = true
  /\ (summary s = VNull ->
      threats s = VArr []
      /\ (loading s = true \/ truthy (error s) = true)).

(** ** Sample traffic for the closed examples *)
Module Samples.
Definition port_scan : value :=
  VObj [("severity", VStr "high"); ("type", VStr "PortScan");
        ("description", VStr "Sequential probe of 1024 ports");
        ("timestamp", VStr "2025-01-01T00:00:00Z")].

Definition threats_payload : value := VObj [("threats", VArr [port_scan])].

Definition summary_payload : value :=
  VObj [("total_threats", VNum 1); ("critical_threats", VNum 0);
        ("blocked_connections", VNum 7); ("monitored_processes", VNum 42)].

(** Both requests answered. *)
Definition both_up : settlement :=
  {| threatsRes := Fulfilled threats_payload;
     summaryRes := Fulfilled summary_payload;
     summaryFirst := false |}.

(** Both requests answered, with no threat on record. *)
Definition all_quiet : settlement :=
  {| threatsRes := Fulfilled (VObj [("threats", VArr [])]);
     summaryRes := Fulfilled summary_payload;
     summaryFirst := false |}.

(** The threat list arrives, the summary request fails. *)
Definition summary_down : settlement :=
  {| threatsRes := Fulfilled threats_payload;
     summaryRes := Rejected "Request failed with status code 500";
     summaryFirst := true |}.

(** Both requests answered, the summary with a body that is not JSON. *)
Definition summary_as_text : settlement :=
  {| threatsRes := Fulfilled threats_payload;
     summaryRes := Fulfilled (VStr "<html>Bad Gateway</html>");
     summaryFirst := false |}.

(** The state of a live component after one good cycle. *)
Definition after_good_cycle : state :=
  {| threats := VArr [port_scan]; summary := summary_payload;
     loading := false; error := VNull |}.
End Samples.

(** * Properties *)

(** ** The two ways a suspended cycle can be resumed *)

Lemma resume_failed (o : settlement) :
  cycle_failed o = true ->
  exists m,
    fetchData_resume o =
      ([SetError (VStr ("Failed to fetch data: " ^^ m));
        ConsoleError "API Error:" m; SetLoading false], Ok tt).
Proof.
  unfold cycle_failed, fetchData_resume, try_block, Promise_all.
  destruct (threatsRes o) as [td | mt], (summaryRes o) as [sd | ms]; cbn.
  - destruct (get_prop td "threats") as [fetched | m]; cbn.
    + discriminate.
    + intros _. exists m. reflexivity.
  - intros _. exists ms. reflexivity.
  - intros _. exists mt. reflexivity.
  - intros _. exists (if summaryFirst o then ms else mt). reflexivity.
Qed.

Lemma resume_succeeded (o : settlement) :
  cycle_failed o = false ->
  exists td sd fetched,
    threatsRes o = Fulfilled td /\ summaryRes o = Fulfilled sd
    /\ get_prop td "threats" = Ok fetched
    /\ fetchData_resume o =
         ([SetThreats (js_or fetched (VArr []));
           SetSummary (js_or sd (VObj [])); SetLoading false], Ok tt).
Proof.
  unfold cycle_failed, fetchData_resume, try_block, Promise_all.
  destruct (threatsRes o) as [td | mt], (summaryRes o) as [sd | ms]; cbn;
    try discriminate.
  destruct (get_prop td "threats") as [fetched | m] eqn:E; cbn.
  - intros _. exists td, sd, fetched. repeat split; assumption || reflexivity.
  - discriminate.
Qed.

Lemma rejected_fails (o : settlement) :
  is_rejected (threatsRes o) || is_rejected (summaryRes o) = true ->
  cycle_failed o = true.
Proof.
  unfold cycle_failed, try_block, Promise_all.
  destruct (threatsRes o), (summaryRes o); cbn; intros H;
    try reflexivity; discriminate.
Qed.

Lemma prefix_nonempty (m : string) :
  truthy (VStr ("Failed to fetch data: " ^^ m)) = true.
Proof. reflexivity. Qed.

Lemma failure_message_truthy (v : value) :
  failure_message v -> truthy v = true.
Proof. intros [m ->]. reflexivity. Qed.

(** A successful cycle run on its own overwrites every slot: its
    result does not depend on the state it started from. *)
Lemma fetch_cycle_forgets (o : settlement) (s1 s2 : state) :
  cycle_failed o = false -> fetch_cycle o s1 = fetch_cycle o s2.
Proof.
  intros H. destruct (resume_succeeded o H) as (td & sd & f & _ & _ & _ & E).
  unfold fetch_cycle, reconcile_state, dispatch_state. rewrite E. reflexivity.
Qed.

(** The slots after a failed cycle has been reconciled. *)
Lemma reconcile_failed (o : settlement) (s : state) :
  cycle_failed o = true ->
  exists m,
    reconcile_state o s =
      {| threats := threats s; summary := summary s; loading := false;
         error := VStr ("Failed to fetch data: " ^^ m) |}.
Proof.
  intros H. destruct (resume_failed o H) as [m E]. exists m.
  unfold reconcile_state. rewrite E. reflexivity.
Qed.

(** ** C1: a failed cycle *)

(** C1.  Whenever a fetch cycle fails, reconciliation stores a failure
    message in [error], which is a non-empty string, sets [loading] to
    false and leaves [threats] and [summary] as they were; a successful
    cycle that comes later stores exactly what it would have stored
    had the old data been absent. *)
Theorem failed_cycle_keeps_stale_data (o : settlement) (s : state) :
  cycle_failed o = true ->
  let s' := reconcile_state o s in
  failure_message (error s')
  /\ error s' <> VStr EmptyString
  /\ truthy (error s') = true
  /\ loading s' = false
  /\ threats s' = threats s
  /\ summary s' = summary s
  /\ forall o2, cycle_failed o2 = false ->
       fetch_cycle o2 s' = fetch_cycle o2 initial_state.
Proof.
  intros H s'. destruct (reconcile_failed o s H) as [m Hs].
  unfold s'. rewrite Hs. cbn [error loading threats summary].
  repeat split.
  - exists m. reflexivity.
  - discriminate.
  - intros o2 H2. apply fetch_cycle_forgets. exact H2.
Qed.

Lemma failed_cycle_keeps_stale_data_witness :
  cycle_failed Samples.summary_down = true
  /\ threats (reconcile_state Samples.summary_down Samples.after_good_cycle)
     = VArr [Samples.port_scan]
  /\ error (reconcile_state Samples.summary_down Samples.after_good_cycle)
     = VStr "Failed to fetch data: Request failed with status code 500".
Proof.
  split; [reflexivity|].
  destruct (failed_cycle_keeps_stale_data Samples.summary_down
              Samples.after_good_cycle eq_refl)
    as (_ & _ & _ & _ & Ht & _).
  split; [exact Ht | reflexivity].
Defined.

(** What the runtime does with a settlement while the component is
    live is exactly [reconcile_state]. *)
Lemma exec_calls_live (cs : list call) (w : world) :
  life w = Live ->
  ui (exec_calls cs w) = apply_calls cs (ui w)
  /\ life (exec_calls cs w) = Live
  /\ interval (exec_calls cs w) = interval w
  /\ pending (exec_calls cs w) = pending w.
Proof.
  revert w. induction cs as [|c cs IH]; intros w Hw.
  - repeat split; assumption.
  - unfold exec_calls, apply_calls in *. cbn [fold_left].
    assert (H1 : life (exec_call c w) = Live
                 /\ ui (exec_call c w) = apply_call c (ui w)
                 /\ interval (exec_call c w) = interval w
                 /\ pending (exec_call c w) = pending w).
    { destruct c; cbn; rewrite ?Hw; cbn; repeat split; assumption. }
    destruct H1 as (L & U & I & P).
    destruct (IH (exec_call c w) L) as (U' & L' & I' & P').
    rewrite U', L', I', P', U, I, P. repeat split.
Qed.

Lemma step_settle_live (o : settlement) (w w' : world) :
  life w = Live -> step (Settle o) w = Some w' ->
  ui w' = reconcile_state o (ui w).
Proof.
  intros Hw. cbn. destruct (pending w) as [|n]; [discriminate|].
  intros [= <-].
  destruct (exec_calls_live (fst (fetchData_resume o)) (set_pending w n) Hw)
    as (U & _).
  exact U.
Qed.

(** ** C3: a successful cycle *)

(** C3, as amended.  Whenever a fetch cycle succeeds, reconciliation
    replaces [threats] by the [threats] field of the payload (by the
    empty array when the field is missing) and [summary] by the summary
    payload (by the empty object when the payload is missing), sets
    [loading] to false and does not touch [error]; [error] is unset
    afterwards when nothing came between the dispatch of the cycle and
    its settlement. *)
Theorem successful_cycle_replaces_data (o : settlement) (s : state) :
  cycle_failed o = false ->
  exists threatsData summaryData fetched,
    threatsRes o = Fulfilled threatsData
    /\ summaryRes o = Fulfilled summaryData
    /\ get_prop threatsData "threats" = Ok fetched
    /\ (forall items, fetched = VArr items ->
          threats (reconcile_state o s) = VArr items)
    /\ (fetched = VUndefined -> threats (reconcile_state o s) = VArr [])
    /\ (forall fields, summaryData = VObj fields ->
          summary (reconcile_state o s) = VObj fields)
    /\ (truthy summaryData = false ->
          summary (reconcile_state o s) = VObj [])
    /\ loading (reconcile_state o s) = false
    /\ error (reconcile_state o s) = error s
    /\ error (fetch_cycle o s) = VNull.
Proof.
  intros H.
  destruct (resume_succeeded o H) as (td & sd & f & Et & Es & Ef & E).
  exists td, sd, f.
  unfold fetch_cycle, reconcile_state, dispatch_state. rewrite E.
  cbn [fst apply_calls fold_left apply_call fetchData_start
       threats summary loading error].
  repeat split; try assumption.
  - intros items ->. reflexivity.
  - intros ->. reflexivity.
  - intros fields ->. reflexivity.
  - intros Hf. unfold js_or. rewrite Hf. reflexivity.
Qed.

Lemma successful_cycle_replaces_data_witness :
  cycle_failed Samples.both_up = false
  /\ threats (reconcile_state Samples.both_up initial_state)
     = VArr [Samples.port_scan]
  /\ error (fetch_cycle Samples.both_up initial_state) = VNull.
Proof.
  split; [reflexivity|].
  destruct (successful_cycle_replaces_data Samples.both_up initial_state
              eq_refl)
    as (td & sd & f & _ & _ & _ & _ & _ & _ & _ & _ & _ & He).
  split; [reflexivity | exact He].
Defined.

(** C3 as stated fails when cycles overlap.  The component is mounted
    and the interval fires before the first cycle has settled; the
    second cycle fails, then the first one succeeds.  After that
    successful reconciliation the fresh data is in place and [loading]
    is false, yet [error] still holds the message of the other cycle. *)
Lemma successful_cycle_may_leave_error_set :
  cycle_failed Samples.both_up = false
  /\ option_map ui
       (run [Mount; Tick; Settle Samples.summary_down; Settle Samples.both_up]
            initial_world)
     = Some {| threats := VArr [Samples.port_scan];
               summary := Samples.summary_payload;
               loading := false;
               error := VStr "Failed to fetch data: Request failed with status code 500" |}.
Proof. split; vm_compute; reflexivity. Qed.

(** ** C4: one cycle, two requests, one outcome *)

(** C4.  Calling [fetchData] issues the threats request and the summary
    request in the same synchronous step and suspends one cycle.  When
    either request is rejected the cycle fails: the message stored in
    [error] is built from the rejection that came first, and the
    presenter shows the error view, whatever the other request
    returned. *)
Theorem cycle_fails_when_either_request_fails
    (o : settlement) (s : state) (w : world) (h : host) (now : Z) :
  is_rejected (threatsRes o) || is_rejected (summaryRes o) = true ->
  network (call_fetchData w) = network w ++ [threats_url; summary_url]
  /\ pending (call_fetchData w) = S (pending w)
  /\ cycle_failed o = true
  /\ exists m,
       (threatsRes o = Rejected m \/ summaryRes o = Rejected m)
       /\ error (reconcile_state o s) = VStr ("Failed to fetch data: " ^^ m)
       /\ App h now (reconcile_state o s)
          = Ok (error_view (VStr ("Failed to fetch data: " ^^ m))).
Proof.
  intros H.
  split.
  { destruct w as [u l i p n c k]; destruct l; cbn;
      rewrite <- app_assoc; reflexivity. }
  split.
  { destruct w as [u l i p n c k]; destruct l; reflexivity. }
  split; [apply rejected_fails; exact H|].
  unfold reconcile_state, fetchData_resume, try_block, Promise_all, App.
  destruct (threatsRes o) as [td | mt], (summaryRes o) as [sd | ms];
    cbn in H; try discriminate.
  - exists ms. split; [right; reflexivity|]. split; reflexivity.
  - exists mt. split; [left; reflexivity|]. split; reflexivity.
  - destruct (summaryFirst o).
    + exists ms. split; [right; reflexivity|]. split; reflexivity.
    + exists mt. split; [left; reflexivity|]. split; reflexivity.
Qed.

Lemma cycle_fails_when_either_request_fails_witness :
  is_rejected (threatsRes Samples.summary_down)
  || is_rejected (summaryRes Samples.summary_down) = true
  /\ threatsRes Samples.summary_down = Fulfilled Samples.threats_payload
  /\ cycle_failed Samples.summary_down = true.
Proof.
  split; [reflexivity|]. split; [reflexivity|].
  destruct (cycle_fails_when_either_request_fails Samples.summary_down
              Samples.after_good_cycle initial_world SampleHost.en_US_UTC 0%Z
              eq_refl)
    as (_ & _ & Hf & _).
  exact Hf.
Defined.

(** ** The slots stay well formed *)

Lemma dispatch_state_eq (s : state) :
  dispatch_state s =
    {| threats := threats s; summary := summary s; loading := true;
       error := VNull |}.
Proof. reflexivity. Qed.

Lemma well_formed_dispatch (s : state) :
  well_formed s -> well_formed (dispatch_state s).
Proof.
  intros [Ht _]. rewrite dispatch_state_eq. split; [exact Ht | left; reflexivity].
Qed.

Lemma well_formed_reconcile (o : settlement) (s : state) :
  honours_contract o -> well_formed s -> well_formed (reconcile_state o s).
Proof.
  intros Hc [[items Ht] He].
  destruct (cycle_failed o) eqn:F.
  - destruct (reconcile_failed o s F) as [m ->].
    split; [exists items; exact Ht | right; exists m; reflexivity].
  - destruct (resume_succeeded o F) as (td & sd & f & Et & _ & Ef & E).
    unfold reconcile_state. rewrite E.
    cbn [fst apply_calls fold_left apply_call threats error].
    split; [|exact He].
    unfold honours_contract in Hc. rewrite Et, Ef in Hc.
    destruct f; try contradiction; cbn; eauto.
Qed.

Lemma exec_calls_dead (cs : list call) (w : world) :
  life w <> Live ->
  ui (exec_calls cs w) = ui w
  /\ life (exec_calls cs w) = life w
  /\ interval (exec_calls cs w) = interval w
  /\ pending (exec_calls cs w) = pending w
  /\ updates (exec_calls cs w) = updates w.
Proof.
  revert w. induction cs as [|c cs IH]; intros w Hw.
  - repeat split.
  - unfold exec_calls in *. cbn [fold_left].
    assert (H1 : life (exec_call c w) = life w
                 /\ ui (exec_call c w) = ui w
                 /\ interval (exec_call c w) = interval w
                 /\ pending (exec_call c w) = pending w
                 /\ updates (exec_call c w) = updates w).
    { destruct c; cbn; destruct (life w) eqn:L0; cbn;
        repeat split; congruence. }
    destruct H1 as (L & U & I & P & N).
    assert (Hw' : life (exec_call c w) <> Live) by (rewrite L; exact Hw).
    destruct (IH (exec_call c w) Hw') as (U' & L' & I' & P' & N').
    rewrite U', L', I', P', N', U, L, I, P, N. repeat split.
Qed.

Lemma step_ui (e : event) (w w' : world) :
  step e w = Some w' ->
  ui w' = ui w
  \/ ui w' = dispatch_state (ui w)
  \/ exists o, e = Settle o /\ ui w' = reconcile_state o (ui w).
Proof.
  destruct e as [| |o|]; cbn.
  - destruct (life w) eqn:L; try discriminate. intros [= <-].
    right; left.
    apply (exec_calls_live fetchData_start (set_life w Live true)).
    reflexivity.
  - destruct (interval w); [|discriminate]. intros [= <-].
    destruct (life w) eqn:L.
    + left. apply (exec_calls_dead fetchData_start w). congruence.
    + right; left. apply (exec_calls_live fetchData_start w L).
    + left. apply (exec_calls_dead fetchData_start w). congruence.
  - destruct (pending w) as [|n]; [discriminate|]. intros [= <-].
    destruct (life w) eqn:L.
    + left.
      apply (exec_calls_dead (fst (fetchData_resume o)) (set_pending w n)).
      cbn. congruence.
    + right; right. exists o. split; [reflexivity|].
      apply (exec_calls_live (fst (fetchData_resume o)) (set_pending w n) L).
    + left.
      apply (exec_calls_dead (fst (fetchData_resume o)) (set_pending w n)).
      cbn. congruence.
  - destruct (life w); try discriminate. intros [= <-]. left. reflexivity.
Qed.

(** Every state the component reaches is well formed, as long as the
    service honours its contract. *)
Lemma well_formed_run (es : list event) (w w' : world) :
  well_formed (ui w) -> Forall event_honours_contract es ->
  run es w = Some w' -> well_formed (ui w').
Proof.
  revert w. induction es as [|e es IH]; intros w Hw Hes; cbn.
  - intros [= <-]. exact Hw.
  - destruct (step e w) as [w1|] eqn:S1; [|discriminate].
    intros R. inversion Hes as [|? ? He Hes']; subst.
    apply (IH w1); try assumption.
    destruct (step_ui e w w1 S1) as [U | [U | (o & -> & U)]]; rewrite U.
    + exact Hw.
    + apply well_formed_dispatch. exact Hw.
    + apply well_formed_reconcile; assumption.
Qed.

Lemma well_formed_initial : well_formed initial_state.
Proof. split; [exists []; reflexivity | left; reflexivity]. Qed.

(** ** C2: the three render modes *)

(** Splits a successful [x <- r ;; k] into its two halves. *)
Ltac bind_ok H :=
  repeat match type of H with
         | bind ?r _ = Ok _ =>
             let E := fresh "E" in
             destruct r eqn:E; cbn [bind] in H; [|discriminate H]
         end.

Lemma dashboard_shape (h : host) (now : Z) (s : state) (e : element) :
  dashboard h now s = Ok e ->
  exists header status grid heading body,
    e = EElem "div" page_style [header; status; grid; heading; body]
    /\ summary_grid (summary s) = Ok grid.
Proof.
  unfold dashboard. intros H. bind_ok H.
  injection H as <-. eauto 10.
Qed.

(** C2.  In every well-formed state the presenter picks its view by
    strict precedence: the error view when [error] is set, whatever
    [loading] and the data are; otherwise the loading placeholder when
    [loading] is true and [threats] is empty; otherwise the dashboard.
    The three views are pairwise different trees, so exactly one of
    them is on the page. *)
Theorem presenter_precedence (h : host) (now : Z) (s : state) :
  well_formed s ->
  App h now s = show_view h now s (select_view s)
  /\ (error s <> VNull -> App h now s = Ok (error_view (error s)))
  /\ (error s = VNull -> loading s = true -> threats s = VArr [] ->
        App h now s = Ok loading_view)
  /\ (error s = VNull -> loading s = false \/ threats s <> VArr [] ->
        App h now s = dashboard h now s)
  /\ error_view (error s) <> loading_view
  /\ (forall e, dashboard h now s = Ok e ->
        e <> loading_view /\ e <> error_view (error s)).
Proof.
  intros [[items Ht] He].
  assert (Hview : App h now s = show_view h now s (select_view s)).
  { unfold App, select_view. rewrite Ht.
    destruct He as [E | [m E]]; rewrite E.
    - cbn [truthy nullish negb]. destruct (loading s); [|reflexivity].
      cbn [andb bind get_prop String.eqb Ascii.eqb Bool.eqb].
      destruct items; reflexivity.
    - rewrite prefix_nonempty. cbn [nullish negb show_view]. rewrite E.
      reflexivity. }
  split; [exact Hview|].
  split.
  { intros Hset. rewrite Hview. unfold select_view.
    destruct He as [E | [m E]]; [contradiction|]. rewrite E.
    cbn [nullish negb show_view]. rewrite E. reflexivity. }
  split.
  { intros E L T. rewrite Hview. unfold select_view. rewrite E, L, T.
    reflexivity. }
  split.
  { intros E HL. rewrite Hview. unfold select_view. rewrite E, Ht. cbn.
    destruct HL as [-> | Hne]; [reflexivity|].
    destruct items; [rewrite Ht in Hne; contradiction|].
    rewrite andb_false_r. reflexivity. }
  split; [discriminate|].
  intros e Hd.
  destruct (dashboard_shape h now s e Hd) as (a & b & g & c & d & -> & _).
  split; discriminate.
Qed.

Lemma presenter_precedence_witness :
  well_formed Samples.after_good_cycle
  /\ App SampleHost.en_US_UTC 0%Z Samples.after_good_cycle
     = dashboard SampleHost.en_US_UTC 0%Z Samples.after_good_cycle.
Proof.
  assert (W : well_formed Samples.after_good_cycle).
  { split; [eexists; reflexivity | left; reflexivity]. }
  split; [exact W|].
  destruct (presenter_precedence SampleHost.en_US_UTC 0%Z Samples.after_good_cycle W)
    as (_ & _ & _ & Hd & _).
  apply Hd; [reflexivity | left; reflexivity].
Defined.

(** ** Settlements after teardown *)

Lemma resume_calls (o : settlement) :
  exists e m,
    fst (fetchData_resume o) = [SetError e; ConsoleError "API Error:" m;
                                SetLoading false]
    \/ exists t s,
         fst (fetchData_resume o) = [SetThreats t; SetSummary s;
                                     SetLoading false].
Proof.
  destruct (cycle_failed o) eqn:F.
  - destruct (resume_failed o F) as [m E]. rewrite E.
    exists (VStr ("Failed to fetch data: " ^^ m)), m. left. reflexivity.
  - destruct (resume_succeeded o F) as (td & sd & f & _ & _ & _ & E).
    rewrite E. exists VNull, EmptyString. right. do 2 eexists. reflexivity.
Qed.


(** ** C6 and C9: severity, colour and label *)

Lemma lower_upper_ascii (c : ascii) :
  lower_ascii (upper_ascii c) = lower_ascii c.
Proof. destruct c as [[] [] [] [] [] [] [] []]; reflexivity. Qed.

Lemma upper_lower_ascii (c : ascii) :
  upper_ascii (lower_ascii c) = upper_ascii c.
Proof. destruct c as [[] [] [] [] [] [] [] []]; reflexivity. Qed.

Lemma lower_lower_ascii (c : ascii) :
  lower_ascii (lower_ascii c) = lower_ascii c.
Proof. destruct c as [[] [] [] [] [] [] [] []]; reflexivity. Qed.

Lemma toLowerCase_toUpperCase (s : string) :
  toLowerCase (toUpperCase s) = toLowerCase s.
Proof.
  induction s as [|c s IH]; [reflexivity|].
  cbn. rewrite lower_upper_ascii. f_equal. exact IH.
Qed.

Lemma toUpperCase_toLowerCase (s : string) :
  toUpperCase (toLowerCase s) = toUpperCase s.
Proof.
  induction s as [|c s IH]; [reflexivity|].
  cbn. rewrite upper_lower_ascii. f_equal. exact IH.
Qed.

Lemma toLowerCase_idempotent (s : string) :
  toLowerCase (toLowerCase s) = toLowerCase s.
Proof.
  induction s as [|c s IH]; [reflexivity|].
  cbn. rewrite lower_lower_ascii. f_equal. exact IH.
Qed.

Lemma getSeverityColor_string (s : string) :
  getSeverityColor (VStr s)
  = Ok (colour_code (palette_find (toLowerCase s) palette)).
Proof.
  unfold getSeverityColor, opt_call_case, palette.
  cbn [bind palette_find].
  destruct (String.eqb (toLowerCase s) "critical"); [reflexivity|].
  destruct (String.eqb (toLowerCase s) "high"); [reflexivity|].
  destruct (String.eqb (toLowerCase s) "medium"); [reflexivity|].
  destruct (String.eqb (toLowerCase s) "low"); reflexivity.
Qed.

(** Two severities that differ only in the case of their letters. *)
Lemma same_case_folded (s1 s2 : string) :
  toLowerCase s1 = toLowerCase s2 ->
  getSeverityColor (VStr s1) = getSeverityColor (VStr s2)
  /\ severity_text (VStr s1) = severity_text (VStr s2).
Proof.
  intros H. split.
  - rewrite !getSeverityColor_string, H. reflexivity.
  - unfold severity_text, opt_call_case. cbn [bind].
    rewrite <- (toUpperCase_toLowerCase s1), <- (toUpperCase_toLowerCase s2), H.
    reflexivity.
Qed.

(** C6.  [getSeverityColor] implements the colour table: critical is
    red, high is orange, medium is amber, low is olive, and an absent
    severity or any other string is gray.  The name is matched without
    regard to the case of its ASCII letters: an ASCII severity, its
    upper-case form and its lower-case form get the same colour. *)
Theorem severity_colour_table (severity : option string) (s : string) :
  is_ascii s = true ->
  getSeverityColor (severity_value severity)
  = Ok (colour_code (severity_colour severity))
  /\ getSeverityColor (VStr (toUpperCase s)) = getSeverityColor (VStr s)
  /\ getSeverityColor (VStr (toLowerCase s)) = getSeverityColor (VStr s)
  /\ getSeverityColor (VStr "critical") = Ok "#ff4444"
  /\ getSeverityColor (VStr "CRITICAL") = getSeverityColor (VStr "critical")
  /\ getSeverityColor (VStr "high") = Ok "#ff8800"
  /\ getSeverityColor (VStr "medium") = Ok "#ffaa00"
  /\ getSeverityColor (VStr "low") = Ok "#88aa00"
  /\ getSeverityColor VUndefined = Ok "#888888"
  /\ getSeverityColor VNull = Ok "#888888"
  /\ getSeverityColor (VStr "bogus") = Ok "#888888".
Proof.
  intros _.
  split.
  { destruct severity as [t|]; [apply getSeverityColor_string | reflexivity]. }
  split.
  { apply same_case_folded, toLowerCase_toUpperCase. }
  split.
  { apply same_case_folded, toLowerCase_idempotent. }
  repeat split.
Qed.

Lemma severity_colour_table_witness :
  is_ascii "Medium" = true
  /\ getSeverityColor (VStr "MEDIUM") = getSeverityColor (VStr "Medium")
  /\ getSeverityColor (VStr "Medium") = Ok "#ffaa00".
Proof.
  split; [reflexivity|].
  destruct (severity_colour_table (Some "Medium") "Medium" eq_refl)
    as (T & U & _).
  split; [exact U | exact T].
Defined.

(** A severity that is present but is not a string has no
    [toLowerCase] method, so the call on line 43 throws. *)
Lemma getSeverityColor_needs_a_string (v : value) :
  nullish v = false -> (forall s, v <> VStr s) ->
  getSeverityColor v = Throw "severity?.toLowerCase is not a function".
Proof.
  destruct v as [ | | b | n | s | items | fields]; intros Hn Hs;
    try discriminate Hn; try reflexivity.
  exfalso. apply (Hs s). reflexivity.
Qed.

(** The table is exact: a colour other than gray is shown for the four
    names only. *)
Lemma severity_colour_exact (s : string) :
  (severity_colour (Some s) = Red <-> toLowerCase s = "critical")
  /\ (severity_colour (Some s) = Orange <-> toLowerCase s = "high")
  /\ (severity_colour (Some s) = Amber <-> toLowerCase s = "medium")
  /\ (severity_colour (Some s) = Olive <-> toLowerCase s = "low").
Proof.
  unfold severity_colour, palette. cbn [palette_find].
  destruct (String.eqb_spec (toLowerCase s) "critical") as [-> | N1].
  { repeat split; intros; try reflexivity; discriminate. }
  destruct (String.eqb_spec (toLowerCase s) "high") as [-> | N2].
  { repeat split; intros; try reflexivity; discriminate. }
  destruct (String.eqb_spec (toLowerCase s) "medium") as [-> | N3].
  { repeat split; intros; try reflexivity; discriminate. }
  destruct (String.eqb_spec (toLowerCase s) "low") as [-> | N4].
  { repeat split; intros; try reflexivity; discriminate. }
  repeat split; intros; try discriminate; contradiction.
Qed.



(** ** Induction over values and elements *)

Lemma value_induction (P : value -> Prop) :
  P VUndefined -> P VNull -> (forall b, P (VBool b)) ->
  (forall n, P (VNum n)) -> (forall s, P (VStr s)) ->
  (forall items, Forall P items -> P (VArr items)) ->
  (forall fields, Forall (fun kv => P (snd kv)) fields -> P (VObj fields)) ->
  forall v, P v.
Proof.
  intros HU HN HB HZ HS HA HO. fix IH 1.
  intros [ | | b | n | s | items | fields];
    [exact HU | exact HN | apply HB | apply HZ | apply HS | | ].
  - apply HA. induction items as [|x r IHr]; constructor;
      [apply IH | exact IHr].
  - apply HO. induction fields as [|[k x] r IHr]; constructor;
      [apply IH | exact IHr].
Qed.

Lemma element_induction (P : element -> Prop) :
  (forall s, P (EText s)) -> (forall v, P (EVal v)) ->
  (forall items, Forall P items -> P (EList items)) ->
  (forall tag st children, Forall P children -> P (EElem tag st children)) ->
  forall e, P e.
Proof.
  intros HT HV HL HE. fix IH 1.
  intros [s | v | items | tag st children]; [apply HT | apply HV | | ].
  - apply HL. induction items as [|x r IHr]; constructor;
      [apply IH | exact IHr].
  - apply HE. induction children as [|x r IHr]; constructor;
      [apply IH | exact IHr].
Qed.

Lemma any_styled_app (st : style) (a b : list node) :
  any_styled st (a ++ b) = any_styled st a || any_styled st b.
Proof. apply existsb_app. Qed.

Lemma styled_Elem (st : style) (tag : string) (st' : style)
    (children : list node) :
  styled st (Elem tag st' children)
  = style_eqb st st' || any_styled st children.
Proof.
  reflexivity.
Qed.

(** A value in child position only ever produces text. *)
Lemma child_of_value_unstyled (st : style) (v : value) :
  forall ns, child_of_value v = Ok ns -> any_styled st ns = false.
Proof.
  induction v as [ | | b | n | s | items IH | fields _] using value_induction;
    intros ns H; cbn in H; try (injection H as <-; reflexivity);
    try discriminate.
  - destruct (String.eqb s EmptyString); injection H as <-; reflexivity.
  - revert ns H. induction IH as [|x r Hx _ IHr]; intros ns H.
    + injection H as <-. reflexivity.
    + bind_ok H. injection H as <-.
      rewrite any_styled_app, (Hx _ eq_refl), (IHr _ eq_refl). reflexivity.
Qed.

Lemma reconcile_EElem (tag : string) (st : style) (children : list element) :
  reconcile (EElem tag st children)
  = (ns <- reconcile_all children ;; Ok [Elem tag st ns]).
Proof.
  reflexivity.
Qed.

Lemma reconcile_EList (items : list element) :
  reconcile (EList items) = reconcile_all items.
Proof.
  reflexivity.
Qed.

Lemma estyled_EElem (st : style) (tag : string) (st' : style)
    (children : list element) :
  estyled st (EElem tag st' children)
  = style_eqb st st' || existsb (estyled st) children.
Proof.
  reflexivity.
Qed.

Lemma estyled_EList (st : style) (items : list element) :
  estyled st (EList items) = existsb (estyled st) items.
Proof.
  reflexivity.
Qed.

(** The styles on the page are the styles written in the JSX. *)
Lemma reconcile_styled (st : style) (e : element) :
  forall ns, reconcile e = Ok ns -> any_styled st ns = estyled st e.
Proof.
  assert (Hall : forall l, Forall (fun e => forall ns, reconcile e = Ok ns ->
                                     any_styled st ns = estyled st e) l ->
                 forall ns, reconcile_all l = Ok ns ->
                            any_styled st ns = existsb (estyled st) l).
  { intros l Hl. induction Hl as [|x r Hx _ IHr]; intros ns H; cbn in H.
    - injection H as <-. reflexivity.
    - bind_ok H. injection H as <-.
      rewrite any_styled_app, (Hx _ eq_refl), (IHr _ eq_refl). reflexivity. }
  induction e as [s | v | items IH | tag st' children IH]
    using element_induction; intros ns H.
  - injection H as <-. reflexivity.
  - cbn [reconcile] in H. cbn [estyled].
    apply (child_of_value_unstyled st v ns H).
  - rewrite reconcile_EList in H. rewrite estyled_EList.
    apply Hall; assumption.
  - rewrite reconcile_EElem in H. bind_ok H. injection H as <-.
    rewrite estyled_EElem. cbn [any_styled existsb].
    rewrite styled_Elem, orb_false_r. f_equal. apply Hall; assumption.
Qed.

(** ** C7: the details block *)

Lemma lookup_app (k : string) (a b : list (string * value)) :
  lookup k (a ++ b)
  = match lookup k a with
    | Some v => Some v
    | None => lookup k b
    end.
Proof.
  induction a as [|[k' v] a IH]; [reflexivity|].
  cbn. destruct (String.eqb k k'); [reflexivity | exact IH].
Qed.

Lemma get_prop_snoc_other (fields : list (string * value)) (k k' : string)
    (d : value) :
  String.eqb k k' = false ->
  get_prop (VObj (fields ++ [(k', d)])) k = get_prop (VObj fields) k.
Proof.
  intros H. cbn [get_prop]. rewrite lookup_app. cbn [lookup]. rewrite H.
  destruct (lookup k fields); reflexivity.
Qed.

Lemma get_prop_snoc_new (fields : list (string * value)) (k : string)
    (d : value) :
  lookup k fields = None ->
  get_prop (VObj (fields ++ [(k, d)])) k = Ok d.
Proof.
  intros H. cbn [get_prop]. rewrite lookup_app, H. cbn [lookup].
  rewrite String.eqb_refl. reflexivity.
Qed.

Lemma getSeverityColor_range (v : value) (c : string) :
  getSeverityColor v = Ok c ->
  c = "#ff4444" \/ c = "#ff8800" \/ c = "#ffaa00" \/ c = "#88aa00"
  \/ c = "#888888".
Proof.
  unfold getSeverityColor. intros H. bind_ok H. injection H as <-.
  destruct a as [ | | b | n | k | items | fields]; auto 6.
  destruct (String.eqb k "critical"); auto.
  destruct (String.eqb k "high"); auto.
  destruct (String.eqb k "medium"); auto.
  destruct (String.eqb k "low"); auto 6.
Qed.

(** C7.  A threat object without a [details] field renders as a card
    with three children and no details block anywhere in it; the same
    threat with [details] set to the empty object renders as the same
    three children followed by a details block that has no entries.
    The two pages differ. *)
Theorem details_absent_vs_empty (h : host) (fields : list (string * value))
    (page : list node) :
  lookup "details" fields = None ->
  card_nodes h (VObj fields) = Ok page ->
  exists header type description,
    page = [Elem "div" card_style [header; type; description]]
    /\ any_styled details_style page = false
    /\ details_block (VObj fields) = Ok (EVal VUndefined)
    /\ details_block (VObj (fields ++ [("details", VObj [])]))
       = Ok (EElem "div" details_style [EList []])
    /\ card_nodes h (VObj (fields ++ [("details", VObj [])]))
       = Ok [Elem "div" card_style
               [header; type; description; Elem "div" details_style []]]
    /\ card_nodes h (VObj (fields ++ [("details", VObj [])])) <> Ok page.
Proof.
  intros Habs H.
  assert (Hd0 : details_block (VObj fields) = Ok (EVal VUndefined)).
  { unfold details_block. cbn [get_prop]. rewrite Habs. reflexivity. }
  assert (Hd1 : details_block (VObj (fields ++ [("details", VObj [])]))
                = Ok (EElem "div" details_style [EList []])).
  { unfold details_block. rewrite (get_prop_snoc_new _ _ _ Habs). reflexivity. }
  assert (Hst : any_styled details_style page = false).
  { unfold card_nodes in H. bind_ok H.
    rewrite (reconcile_styled details_style _ _ H).
    unfold threat_card in E. rewrite Hd0 in E. bind_ok E. injection E as <-.
    destruct (getSeverityColor_range _ _ E1) as [-> | [-> | [-> | [-> | ->]]]];
      reflexivity. }
  unfold card_nodes, threat_card, severity_label in *.
  rewrite Hd1. rewrite Hd0 in H.
  rewrite !(get_prop_snoc_other fields _ "details") by reflexivity.
  bind_ok H. bind_ok E. injection E as <-.
  cbn [bind]. rewrite E1. cbn [bind]. rewrite E2. cbn [bind].
  match goal with
  | Hf : formatTimestamp _ _ = Ok _ |- _ => rewrite Hf
  end.
  cbn [reconcile bind app] in H |- *.
  change (child_of_value VUndefined) with (@Ok (list node) []) in H.
  repeat match type of H with
         | context [child_of_value ?v] =>
             destruct (child_of_value v) eqn:?; cbn [bind app] in H |- *;
             [|discriminate H]
         end.
  rewrite ?app_nil_r in H |- *. cbn [app] in H |- *.
  injection H as <-.
  do 3 eexists.
  repeat split; try reflexivity; try assumption.
  discriminate.
Qed.

Lemma details_absent_vs_empty_witness :
  lookup "details" [("severity", VStr "low"); ("type", VStr "Beacon")] = None
  /\ exists page,
       card_nodes SampleHost.en_US_UTC
         (VObj [("severity", VStr "low"); ("type", VStr "Beacon")]) = Ok page
       /\ card_nodes SampleHost.en_US_UTC
            (VObj [("severity", VStr "low"); ("type", VStr "Beacon");
                   ("details", VObj [])]) <> Ok page.
Proof.
  split; [reflexivity|].
  eexists. split; [reflexivity|].
  destruct (details_absent_vs_empty SampleHost.en_US_UTC
              [("severity", VStr "low"); ("type", VStr "Beacon")] _
              eq_refl eq_refl)
    as (a & b & c & _ & _ & _ & _ & _ & Hne).
  exact Hne.
Defined.


(** ** C5: what the page depends on *)

(** The error view does not read the clock or the locale. *)
Lemma error_view_ignores_the_browser (h h' : host) (now now' : Z) (s : state) :
  truthy (error s) = true -> render h now s = render h' now' s.
Proof. intros H. unfold render, App. rewrite H. reflexivity. Qed.

(** Neither does the loading placeholder. *)
Lemma loading_view_ignores_the_browser (h h' : host) (now now' : Z)
    (s : state) :
  truthy (error s) = false -> loading s = true -> threats s = VArr [] ->
  render h now s = render h' now' s.
Proof. intros He Hl Ht. unfold render, App. rewrite He, Hl, Ht. reflexivity. Qed.

(** C5, as amended.  The page is a function of the state, of the
    browser's locale and of the local time of day that the dashboard
    prints after "Last updated": two renders of one state agree
    whenever that time string is the same.  A successful cycle repeated
    with the same responses leaves the state as it was, so the page is
    the same under the same condition. *)
Theorem page_is_function_of_state_and_clock
    (h : host) (now now' : Z) (s : state) (o : settlement) :
  clockToLocaleTimeString h now = clockToLocaleTimeString h now' ->
  cycle_failed o = false ->
  render h now s = render h now' s
  /\ fetch_cycle o (fetch_cycle o s) = fetch_cycle o s
  /\ render h now (fetch_cycle o s)
     = render h now' (fetch_cycle o (fetch_cycle o s)).
Proof.
  intros Hclock Hok.
  assert (R : forall t, render h now t = render h now' t).
  { intros t. unfold render, App, dashboard. rewrite Hclock. reflexivity. }
  assert (I : fetch_cycle o (fetch_cycle o s) = fetch_cycle o s)
    by (apply fetch_cycle_forgets; exact Hok).
  split; [apply R|]. split; [exact I|]. rewrite I. apply R.
Qed.

Lemma page_is_function_of_state_and_clock_witness :
  clockToLocaleTimeString SampleHost.en_US_UTC 0
  = clockToLocaleTimeString SampleHost.en_US_UTC 86400000
  /\ cycle_failed Samples.both_up = false
  /\ render SampleHost.en_US_UTC 0 (fetch_cycle Samples.both_up initial_state)
     = render SampleHost.en_US_UTC 86400000
         (fetch_cycle Samples.both_up
            (fetch_cycle Samples.both_up initial_state)).
Proof.
  split; [reflexivity|]. split; [reflexivity|].
  destruct (page_is_function_of_state_and_clock SampleHost.en_US_UTC 0 86400000
              initial_state Samples.both_up eq_refl eq_refl) as (_ & _ & H).
  exact H.
Defined.

(** C5 as stated fails: the dashboard prints the time of the render.
    After two identical successful cycles the state is the same, but
    the page rendered one second later is another page. *)
Lemma rendering_reads_the_clock :
  fetch_cycle Samples.all_quiet (fetch_cycle Samples.all_quiet initial_state)
  = fetch_cycle Samples.all_quiet initial_state
  /\ render SampleHost.en_US_UTC 0
       (fetch_cycle Samples.all_quiet initial_state)
     <> render SampleHost.en_US_UTC 1000
          (fetch_cycle Samples.all_quiet
             (fetch_cycle Samples.all_quiet initial_state)).
Proof.
  split; [reflexivity|].
  vm_compute. intros H. discriminate H.
Qed.

(** ** C10: the summary grid *)

Lemma detail_rows_no_grid (entries : list (string * value)) :
  existsb (estyled grid_style) (map detail_row entries) = false.
Proof.
  induction entries as [|kv r IH]; [reflexivity|].
  cbn [map existsb]. rewrite IH. reflexivity.
Qed.

Lemma details_block_no_grid (t : value) (e : element) :
  details_block t = Ok e -> estyled grid_style e = false.
Proof.
  unfold details_block. intros H. bind_ok H.
  destruct (truthy a).
  - bind_ok H. injection H as <-.
    rewrite estyled_EElem. cbn [existsb]. rewrite estyled_EList.
    rewrite detail_rows_no_grid. reflexivity.
  - injection H as <-. reflexivity.
Qed.

Lemma threat_card_no_grid (h : host) (t : value) (e : element) :
  threat_card h t = Ok e -> estyled grid_style e = false.
Proof.
  unfold threat_card. intros H. bind_ok H. injection H as <-.
  rewrite estyled_EElem. cbn [existsb].
  match goal with
  | Hd : details_block _ = Ok _ |- _ =>
      rewrite (details_block_no_grid _ _ Hd)
  end.
  reflexivity.
Qed.

Lemma cards_no_grid (h : host) (items : list value) :
  forall cards, mapM (threat_card h) items = Ok cards ->
                existsb (estyled grid_style) cards = false.
Proof.
  induction items as [|t r IH]; intros cards H; cbn in H.
  - injection H as <-. reflexivity.
  - bind_ok H. injection H as <-. cbn [existsb].
    rewrite (threat_card_no_grid _ _ _ E), (IH _ eq_refl). reflexivity.
Qed.

(** Without a summary, no view contains the grid. *)
Lemma no_summary_no_grid (h : host) (now : Z) (s : state) (page : list node) :
  summary s = VNull -> render h now s = Ok page -> shows_grid page = false.
Proof.
  intros Hs H. unfold render in H. bind_ok H. unfold shows_grid.
  rewrite (reconcile_styled grid_style _ _ H). clear H.
  unfold App in E. destruct (truthy (error s)).
  { injection E as <-. reflexivity. }
  bind_ok E. destruct a0.
  { injection E as <-. reflexivity. }
  unfold dashboard in E. rewrite Hs in E. cbn [summary_grid truthy bind] in E.
  bind_ok E. injection E as <-.
  rewrite estyled_EElem. cbn [existsb].
  match goal with
  | Hb : (if strict_eq_num ?c 0 then _ else _) = Ok ?b |- _ =>
      rename Hb into Hb'; rename b into body; rename c into count
  end.
  assert (Hbody : estyled grid_style body = false).
  { destruct (strict_eq_num count 0).
    - injection Hb' as <-. reflexivity.
    - bind_ok Hb'. injection Hb' as <-.
      rewrite estyled_EElem. cbn [existsb]. rewrite estyled_EList.
      match goal with
      | Hc : threats_map _ _ = Ok _ |- _ =>
          unfold threats_map in Hc;
          destruct (threats s); cbn in Hc; try discriminate Hc;
          rewrite (cards_no_grid _ _ _ Hc); reflexivity
      end. }
  rewrite Hbody. destruct (loading s); reflexivity.
Qed.

Lemma js_or_object_truthy (v : value) : truthy (js_or v (VObj [])) = true.
Proof. unfold js_or. destruct (truthy v) eqn:E; [exact E | reflexivity]. Qed.

(** No cycle ever resets [summary] to null. *)
Lemma summary_stays (e : event) (w w' : world) :
  truthy (summary (ui w)) = true -> step e w = Some w' ->
  truthy (summary (ui w')) = true.
Proof.
  intros T S1.
  destruct (step_ui e w w' S1) as [U | [U | (o & _ & U)]]; rewrite U.
  - exact T.
  - exact T.
  - destruct (cycle_failed o) eqn:F.
    + destruct (reconcile_failed o (ui w) F) as [m ->]. exact T.
    + destruct (resume_succeeded o F) as (td & sd & f & _ & _ & _ & E).
      unfold reconcile_state. rewrite E. apply js_or_object_truthy.
Qed.

Lemma summary_stays_run (es : list event) (w w' : world) :
  truthy (summary (ui w)) = true -> run es w = Some w' ->
  truthy (summary (ui w')) = true.
Proof.
  revert w. induction es as [|e es IH]; intros w T; cbn.
  - intros [= <-]. exact T.
  - destruct (step e w) as [w1|] eqn:S1; [|discriminate].
    apply IH. apply (summary_stays e w w1 T S1).
Qed.

(** A counter whose field is absent shows zero. *)
Lemma counter_text_absent (summary : value) (name : string) :
  get_prop summary name = Ok VUndefined ->
  counter_text summary name = Ok [Text "0"].
Proof. intros H. unfold counter_text. rewrite H. reflexivity. Qed.

Lemma grid_nodes_shape (summary : value) (g : list node) :
  truthy summary = true -> grid_nodes summary = Ok g ->
  exists total critical blocked processes,
    counter_text summary "total_threats" = Ok total
    /\ counter_text summary "critical_threats" = Ok critical
    /\ counter_text summary "blocked_connections" = Ok blocked
    /\ counter_text summary "monitored_processes" = Ok processes
    /\ g = [Elem "div" grid_style
              [counter_node "#00ff88" total "Total Threats";
               counter_node "#ff4444" critical "Critical";
               counter_node "#0088ff" blocked "Blocked";
               counter_node "#ffaa00" processes "Processes"]].
Proof.
  intros T H. unfold grid_nodes, summary_grid in H. rewrite T in H.
  bind_ok H. bind_ok E. injection E as <-.
  unfold counter_text. rewrite E0, E1, E2, E3. cbn [bind].
  unfold counter_cell in H. cbn [reconcile bind app] in H.
  repeat match type of H with
         | context [child_of_value ?v] =>
             destruct (child_of_value v) eqn:?; cbn [bind app] in H;
             [|discriminate H]
         end.
  rewrite ?app_nil_r in H. injection H as <-.
  do 4 eexists. repeat split.
Qed.

Lemma shows_grid_inside (tag : string) (st : style) (before after : list node)
    (cells : list node) :
  shows_grid [Elem tag st (before ++ [Elem "div" grid_style cells] ++ after)]
  = true.
Proof.
  unfold shows_grid. cbn [any_styled existsb].
  rewrite styled_Elem, !any_styled_app. cbn [any_styled existsb].
  rewrite (styled_Elem grid_style "div" grid_style cells).
  replace (style_eqb grid_style grid_style) with true by reflexivity.
  cbn [orb]. rewrite !orb_true_r. reflexivity.
Qed.

(** C10, as amended.  A state whose [summary] is null, like the initial
    state, renders without the summary grid, whichever view is shown.
    A successful cycle stores the summary payload as it is, an object
    when the payload is an object, or the empty object when the payload
    is missing, so [summary] is non-null afterwards, and it stays
    non-null through every later event.  From then on,
    whenever the dashboard is rendered it contains the grid with its
    four counters, a counter whose field is absent showing 0. *)
Theorem summary_grid_follows_summary
    (h : host) (now : Z) (s0 : state) (page0 : list node)
    (w w1 w2 : world) (o : settlement) (es : list event)
    (e : element) (page : list node) :
  summary s0 = VNull -> render h now s0 = Ok page0 ->
  life w = Live -> cycle_failed o = false ->
  step (Settle o) w = Some w1 -> run es w1 = Some w2 ->
  dashboard h now (ui w2) = Ok e -> reconcile e = Ok page ->
  summary initial_state = VNull
  /\ shows_grid page0 = false
  /\ (exists data, summaryRes o = Fulfilled data
                   /\ summary (ui w1) = js_or data (VObj [])
                   /\ (forall fields, data = VObj fields ->
                         summary (ui w1) = VObj fields)
                   /\ (truthy data = false -> summary (ui w1) = VObj []))
  /\ truthy (summary (ui w1)) = true
  /\ truthy (summary (ui w2)) = true
  /\ shows_grid page = true
  /\ (exists total critical blocked processes before after,
        counter_text (summary (ui w2)) "total_threats" = Ok total
        /\ counter_text (summary (ui w2)) "critical_threats" = Ok critical
        /\ counter_text (summary (ui w2)) "blocked_connections" = Ok blocked
        /\ counter_text (summary (ui w2)) "monitored_processes" = Ok processes
        /\ page = [Elem "div" page_style
                     (before
                      ++ [Elem "div" grid_style
                            [counter_node "#00ff88" total "Total Threats";
                             counter_node "#ff4444" critical "Critical";
                             counter_node "#0088ff" blocked "Blocked";
                             counter_node "#ffaa00" processes "Processes"]]
                      ++ after)])
  /\ (forall name, get_prop (summary (ui w2)) name = Ok VUndefined ->
        counter_text (summary (ui w2)) name = Ok [Text "0"]).
Proof.
  intros Hnull Hpage0 Hlive Hok Hstep Hrun Hdash Hrec.
  assert (H0 : exists data, summaryRes o = Fulfilled data
                            /\ summary (ui w1) = js_or data (VObj [])).
  { rewrite (step_settle_live o w w1 Hlive Hstep).
    destruct (resume_succeeded o Hok) as (td & sd & f & _ & Es & _ & E).
    exists sd. split; [exact Es|].
    unfold reconcile_state. rewrite E. reflexivity. }
  assert (T1 : truthy (summary (ui w1)) = true).
  { destruct H0 as (data & _ & ->). apply js_or_object_truthy. }
  assert (H1 : exists data, summaryRes o = Fulfilled data
                 /\ summary (ui w1) = js_or data (VObj [])
                 /\ (forall fields, data = VObj fields ->
                       summary (ui w1) = VObj fields)
                 /\ (truthy data = false -> summary (ui w1) = VObj [])).
  { destruct H0 as (data & Ed & Es). exists data.
    split; [exact Ed|]. split; [exact Es|]. rewrite Es. split.
    - intros fields ->. reflexivity.
    - intros Tf. unfold js_or. rewrite Tf. reflexivity. }
  assert (T2 : truthy (summary (ui w2)) = true)
    by (apply (summary_stays_run es w1 w2 T1 Hrun)).
  assert (Hshape :
    exists total critical blocked processes before after,
      counter_text (summary (ui w2)) "total_threats" = Ok total
      /\ counter_text (summary (ui w2)) "critical_threats" = Ok critical
      /\ counter_text (summary (ui w2)) "blocked_connections" = Ok blocked
      /\ counter_text (summary (ui w2)) "monitored_processes" = Ok processes
      /\ page = [Elem "div" page_style
                   (before
                    ++ [Elem "div" grid_style
                          [counter_node "#00ff88" total "Total Threats";
                           counter_node "#ff4444" critical "Critical";
                           counter_node "#0088ff" blocked "Blocked";
                           counter_node "#ffaa00" processes "Processes"]]
                    ++ after)]).
  { destruct (dashboard_shape h now (ui w2) e Hdash)
      as (a & b & g & c & d & -> & Hg).
    rewrite reconcile_EElem in Hrec. cbn [reconcile_all] in Hrec.
    destruct (reconcile a) as [na|] eqn:Ea; [|discriminate Hrec].
    destruct (reconcile b) as [nb|] eqn:Eb; [|discriminate Hrec].
    destruct (reconcile g) as [ng|] eqn:Eg; [|discriminate Hrec].
    destruct (reconcile c) as [nc|] eqn:Ec; [|discriminate Hrec].
    destruct (reconcile d) as [nd|] eqn:Ed; [|discriminate Hrec].
    cbn [bind] in Hrec. injection Hrec as <-.
    assert (Hgrid : grid_nodes (summary (ui w2)) = Ok ng)
      by (unfold grid_nodes; rewrite Hg; exact Eg).
    destruct (grid_nodes_shape _ _ T2 Hgrid)
      as (t1 & t2 & t3 & t4 & C1 & C2 & C3 & C4 & ->).
    exists t1, t2, t3, t4, (na ++ nb), (nc ++ nd).
    repeat split; try assumption.
    rewrite app_nil_r, <- !app_assoc. reflexivity. }
  repeat split; try assumption.
  - apply (no_summary_no_grid h now s0 page0 Hnull Hpage0).
  - destruct Hshape as (t1 & t2 & t3 & t4 & bf & af & _ & _ & _ & _ & ->).
    apply shows_grid_inside.
  - intros name. apply counter_text_absent.
Qed.

Lemma summary_grid_follows_summary_witness :
  exists w w1 w2 page0 page,
    run [Mount] initial_world = Some w
    /\ step (Settle Samples.both_up) w = Some w1
    /\ run [Tick] w1 = Some w2
    /\ render SampleHost.en_US_UTC 0 initial_state = Ok page0
    /\ render SampleHost.en_US_UTC 0 (ui w2) = Ok page
    /\ shows_grid page0 = false
    /\ shows_grid page = true.
Proof.
  pose (w := call_fetchData (set_life initial_world Live true)).
  pose (w1 := exec_calls (fst (fetchData_resume Samples.both_up))
                (set_pending w 0)).
  pose (w2 := call_fetchData w1).
  pose (page0 := match render SampleHost.en_US_UTC 0 initial_state with
                 | Ok p => p
                 | Throw _ => []
                 end).
  pose (e := match dashboard SampleHost.en_US_UTC 0 (ui w2) with
             | Ok e => e
             | Throw _ => EText EmptyString
             end).
  pose (page := match reconcile e with
                | Ok p => p
                | Throw _ => []
                end).
  exists w, w1, w2, page0, page.
  assert (Hp0 : render SampleHost.en_US_UTC 0 initial_state = Ok page0)
    by reflexivity.
  assert (Hs : step (Settle Samples.both_up) w = Some w1) by reflexivity.
  assert (Hr : run [Tick] w1 = Some w2) by reflexivity.
  assert (Hd : dashboard SampleHost.en_US_UTC 0 (ui w2) = Ok e) by reflexivity.
  assert (He : reconcile e = Ok page) by reflexivity.
  destruct (summary_grid_follows_summary SampleHost.en_US_UTC 0 initial_state
              page0 w w1 w2 Samples.both_up [Tick] e page
              eq_refl Hp0 eq_refl eq_refl Hs Hr Hd He)
    as (_ & G0 & _ & _ & _ & G & _).
  repeat split; assumption || reflexivity.
Defined.

(** C10 as stated fails in two places.  A non-null [summary] does not
    put the grid on the page while another view has precedence: after a
    good cycle that found no threat, the next tick brings back the
    loading placeholder, and after a good cycle followed by a failed
    one the error view is shown; in both states [summary] is non-null
    and the page has no grid.  And [summary] need not be an object
    after a successful cycle: when the summary request is answered with
    a body that is not JSON, axios hands over the text, which is stored
    as it is. *)
Lemma grid_hidden_by_the_other_views :
  option_map
    (fun w => (truthy (summary (ui w)), select_view (ui w),
               page_shows_grid SampleHost.en_US_UTC 0 (ui w)))
    (run [Mount; Settle Samples.all_quiet; Tick] initial_world)
  = Some (true, LoadingView, Some false)
  /\ option_map
       (fun w => (truthy (summary (ui w)), select_view (ui w),
                  page_shows_grid SampleHost.en_US_UTC 0 (ui w)))
       (run [Mount; Settle Samples.both_up; Tick; Settle Samples.summary_down]
            initial_world)
     = Some (true, ErrorView, Some false)
  /\ cycle_failed Samples.summary_as_text = false
  /\ option_map
       (fun w => (summary (ui w),
                  page_shows_grid SampleHost.en_US_UTC 0 (ui w)))
       (run [Mount; Settle Samples.summary_as_text] initial_world)
     = Some (VStr "<html>Bad Gateway</html>", Some true).
Proof. repeat split; vm_compute; reflexivity. Qed.

(** * Further properties of the component *)

(** ** The polling loop, lines 12-36 *)

Lemma resume_cases (o : settlement) :
  (exists m,
     snd (try_block o) = Throw m
     /\ fst (fetchData_resume o)
        = [SetError (VStr ("Failed to fetch data: " ^^ m));
           ConsoleError "API Error:" m; SetLoading false])
  \/ (exists t sm,
        snd (try_block o) = Ok tt
        /\ fst (fetchData_resume o)
           = [SetThreats t; SetSummary sm; SetLoading false]).
Proof.
  unfold fetchData_resume, try_block, Promise_all.
  destruct (threatsRes o) as [td | mt], (summaryRes o) as [sd | ms]; cbn.
  - destruct (get_prop td "threats") as [fetched | m]; cbn.
    + right. do 2 eexists. split; reflexivity.
    + left. exists m. split; reflexivity.
  - left. exists ms. split; reflexivity.
  - left. exists mt. split; reflexivity.
  - left. eexists. split; reflexivity.
Qed.

Lemma step_accounting (e : event) (w w' : world) :
  step e w = Some w' ->
  network w' = network w
               ++ (if dispatches e then [threats_url; summary_url] else [])
  /\ pending w' + (if settles e then 1 else 0)
     = pending w + (if dispatches e then 1 else 0)
  /\ console w' = console w
                  ++ match e with
                     | Settle o => logged o
                     | _ => []
                     end.
Proof.
  destruct e as [| |o|]; cbn [step dispatches settles].
  - destruct w as [u l i p n c k]; destruct l; try discriminate.
    intros [= <-]. cbn. rewrite <- app_assoc, app_nil_r.
    repeat split; try lia.
  - destruct w as [u l i p n c k]; destruct i; try discriminate.
    intros [= <-]. destruct l; cbn; rewrite <- ?app_assoc, ?app_nil_r;
      repeat split; try lia.
  - destruct (pending w) as [|n0] eqn:P; [discriminate|]. intros [= <-].
    unfold logged.
    destruct (resume_cases o) as [(m & T & E) | (t & sm & T & E)];
      rewrite T, E; destruct w as [u l i p n c k]; cbn in P; subst p;
      destruct l; cbn; rewrite ?app_nil_r; repeat split; try lia.
  - destruct w as [u l i p n c k]; destruct l; try discriminate.
    intros [= <-]. cbn. rewrite !app_nil_r. repeat split; try lia.
Qed.

Lemma flat_map_length_requests (es : list event) :
  List.length (requests_of es) = 2 * count_events dispatches es.
Proof.
  unfold requests_of, count_events.
  induction es as [|e es IH]; [reflexivity|].
  cbn [flat_map filter]. rewrite length_app, IH.
  destruct (dispatches e); cbn [List.length]; lia.
Qed.

(** X1.  Every call of [fetchData], at mount and at each tick, sends exactly
    the threats request followed by the summary request, and nothing
    else ever sends a request; every cycle that was started is either
    still suspended or has been settled. *)
Theorem requests_follow_dispatches (es : list event) (w : world) :
  run es initial_world = Some w ->
  network w = requests_of es
  /\ List.length (network w) = 2 * count_events dispatches es
  /\ pending w + count_events settles es = count_events dispatches es.
Proof.
  assert (G : forall es w0 w,
             run es w0 = Some w ->
             network w = network w0 ++ requests_of es
             /\ pending w + count_events settles es
                = pending w0 + count_events dispatches es).
  { clear. induction es as [|e es IH]; intros w0 w; cbn [run].
    - intros [= <-]. rewrite app_nil_r. split; reflexivity.
    - destruct (step e w0) as [w1|] eqn:S1; [|discriminate]. intros R.
      destruct (step_accounting e w0 w1 S1) as (N & P & _).
      destruct (IH w1 w R) as (N' & P').
      split.
      + rewrite N', N, <- app_assoc. reflexivity.
      + unfold count_events in *. cbn [filter].
        destruct (settles e), (dispatches e); cbn [List.length]; lia. }
  intros R. destruct (G es initial_world w R) as (N & P).
  cbn in N, P. split; [exact N|]. split; [|exact P].
  rewrite N. apply flat_map_length_requests.
Qed.

Lemma requests_follow_dispatches_witness :
  exists w,
    run [Mount; Tick; Settle Samples.both_up; Tick] initial_world = Some w
    /\ List.length (network w) = 6
    /\ pending w = 2.
Proof.
  pose (w := match run [Mount; Tick; Settle Samples.both_up; Tick]
                       initial_world with
             | Some w => w
             | None => initial_world
             end).
  exists w.
  assert (R : run [Mount; Tick; Settle Samples.both_up; Tick] initial_world
              = Some w)
    by (vm_compute; reflexivity).
  destruct (requests_follow_dispatches _ w R) as (_ & L & P).
  split; [exact R|]. split; [exact L|]. vm_compute. reflexivity.
Defined.

(** X3.  Each failed settlement writes one line to the console, made of the
    label and the message of the error; a successful one writes
    nothing.  This holds for a torn-down component too: a cycle that
    fails after teardown is still logged. *)
Theorem failures_are_logged (o : settlement) (w w' : world) :
  step (Settle o) w = Some w' ->
  console w' = console w ++ logged o
  /\ (cycle_failed o = false -> console w' = console w)
  /\ (cycle_failed o = true ->
        exists m, console w' = console w ++ ["API Error: " ^^ m]
                  /\ (life w = Live ->
                      error (ui w') = VStr ("Failed to fetch data: " ^^ m))).
Proof.
  intros S1. destruct (step_accounting _ w w' S1) as (_ & _ & C).
  split; [exact C|].
  unfold cycle_failed, logged in *.
  destruct (resume_cases o) as [(m & T & E) | (t & sm & T & E)]; rewrite T in *.
  - split; [discriminate|]. intros _. exists m. split; [exact C|].
    intros L. rewrite (step_settle_live o w w' L S1).
    unfold reconcile_state. rewrite E. reflexivity.
  - split; [|discriminate]. intros _. rewrite C, app_nil_r. reflexivity.
Qed.

Lemma failures_are_logged_witness :
  exists before torn after,
    run [Mount] initial_world = Some before
    /\ step Unmount before = Some torn
    /\ step (Settle Samples.summary_down) torn = Some after
    /\ console after = ["API Error: Request failed with status code 500"]
    /\ ui after = ui torn.
Proof.
  pose (before := call_fetchData (set_life initial_world Live true)).
  pose (torn := set_life before Gone false).
  pose (after := exec_calls (fst (fetchData_resume Samples.summary_down))
                   (set_pending torn 0)).
  exists before, torn, after.
  assert (S1 : step (Settle Samples.summary_down) torn = Some after)
    by reflexivity.
  destruct (failures_are_logged Samples.summary_down torn after S1)
    as (C & _).
  split; [reflexivity|]. split; [reflexivity|]. split; [exact S1|].
  split; [exact C | reflexivity].
Defined.

Lemma step_life (e : event) (w w' : world) :
  step e w = Some w' ->
  (life w = Live <-> interval w = true) -> (life w = Fresh -> pending w = 0) ->
  (life w' = Live <-> interval w' = true)
  /\ life w' <> Fresh
  /\ (e = Mount <-> life w = Fresh)
  /\ (life w' = Gone <-> life w = Gone \/ e = Unmount).
Proof.
  intros S1 Inv Hp. destruct w as [u l i p n c k]. cbn in Inv, Hp.
  destruct e as [| |o|]; cbn in S1.
  - destruct l; try discriminate. injection S1 as <-. cbn.
    repeat split; auto; try discriminate.
    intros [H | H]; discriminate H.
  - destruct i; try discriminate. injection S1 as <-.
    assert (l = Live) by (apply Inv; reflexivity). subst l. cbn.
    repeat split; auto; try discriminate.
    intros [H | H]; discriminate H.
  - destruct p as [|p]; try discriminate. injection S1 as <-.
    destruct (resume_calls o) as (x & m & [E | (t & sm & E)]); rewrite E;
      destruct l; cbn; cbn in Inv;
      try (specialize (Hp eq_refl); discriminate Hp);
      repeat split; auto; try discriminate; try apply Inv;
      try (intros [H | H]; discriminate H).
  - destruct l; try discriminate. injection S1 as <-. cbn.
    repeat split; auto; try discriminate.
Qed.

(** X2.  The interval is armed exactly while the component is mounted.  The
    first event of a run is the mount and the component is mounted only
    once; it is torn down exactly when the cleanup has run. *)
Theorem interval_follows_lifecycle (es : list event) (w : world) :
  run es initial_world = Some w ->
  (interval w = true <-> life w = Live)
  /\ (life w = Fresh <-> es = [])
  /\ (forall e rest, es = e :: rest -> e = Mount /\ ~ In Mount rest)
  /\ (life w = Gone <-> In Unmount es).
Proof.
  assert (G : forall es w0 w,
             run es w0 = Some w ->
             (life w0 = Live <-> interval w0 = true) ->
             life w0 <> Fresh ->
             (life w = Live <-> interval w = true)
             /\ life w <> Fresh
             /\ ~ In Mount es
             /\ (life w = Gone <-> life w0 = Gone \/ In Unmount es)).
  { clear. induction es as [|e es IH]; intros w0 w; cbn [run In].
    - intros [= <-] Inv NF. tauto.
    - destruct (step e w0) as [w1|] eqn:S1; [|discriminate].
      intros R Inv NF.
      destruct (step_life e w0 w1 S1 Inv) as (Inv1 & NF1 & M & U).
      { intros F. contradiction. }
      destruct (IH w1 w R Inv1 NF1) as (Inv' & NF' & NM & U').
      assert (Hm : e <> Mount) by (intros Hm; apply NF, M, Hm).
      assert (Hu : e = Unmount <-> Unmount = e) by (split; intros; congruence).
      assert (Hm' : Mount = e -> False) by (intros Hx; apply Hm; congruence).
      tauto. }
  destruct es as [|e es]; cbn [run In].
  - intros [= <-]. cbn.
    repeat split; try discriminate; try tauto; try reflexivity.
  - destruct (step e initial_world) as [w1|] eqn:S1; [|discriminate].
    intros R.
    destruct (step_life e initial_world w1 S1) as (Inv1 & NF1 & M & U).
    { cbn. split; discriminate. }
    { reflexivity. }
    assert (Em : e = Mount) by (apply M; reflexivity).
    destruct (G es w1 w R Inv1 NF1) as (Inv' & NF' & NM & U').
    assert (Hu : Unmount = e -> False) by (intros Hx; subst e; discriminate Hx).
    assert (Hg : life initial_world = Gone -> False) by discriminate.
    assert (Hu' : e = Unmount -> False) by (intros Hx; apply Hu; congruence).
    split; [tauto|]. split; [split; [tauto | discriminate]|].
    split; [|tauto].
    intros e' rest [= <- <-]. split; [exact Em | exact NM].
Qed.

Lemma interval_follows_lifecycle_witness :
  exists w,
    run [Mount; Tick; Unmount; Settle Samples.both_up] initial_world = Some w
    /\ life w = Gone /\ interval w = false.
Proof.
  pose (w := match run [Mount; Tick; Unmount; Settle Samples.both_up]
                       initial_world with
             | Some w => w
             | None => initial_world
             end).
  exists w.
  assert (R : run [Mount; Tick; Unmount; Settle Samples.both_up]
                  initial_world = Some w)
    by (vm_compute; reflexivity).
  destruct (interval_follows_lifecycle _ w R) as (_ & _ & _ & G).
  split; [exact R|]. split; [|reflexivity].
  apply G. right. right. left. reflexivity.
Defined.

(** ** The reconciler, lines 13-31 *)

Lemma get_prop_throws (v : value) (k : string) :
  throws (get_prop v k) = nullish v.
Proof.
  destruct v as [ | | b | n | s | items | fields]; cbn [get_prop nullish];
    try reflexivity.
  - destruct (String.eqb k "length"); reflexivity.
  - destruct (String.eqb k "length"); reflexivity.
  - destruct (lookup k fields); reflexivity.
Qed.

(** X4.  A cycle fails in exactly three cases: the threats request is
    rejected, the summary request is rejected, or the threats response
    arrives with a body that is null or undefined, on which reading
    [.threats] throws.  Any other body of the threats response, and any
    body at all of the summary response, makes the cycle succeed. *)
Theorem cycle_failed_iff (o : settlement) :
  cycle_failed o = true
  <-> is_rejected (threatsRes o) = true
      \/ is_rejected (summaryRes o) = true
      \/ exists body, threatsRes o = Fulfilled body /\ nullish body = true.
Proof.
  unfold cycle_failed, try_block, Promise_all.
  destruct (threatsRes o) as [td | mt], (summaryRes o) as [sd | ms]; cbn.
  - pose proof (get_prop_throws td "threats") as T.
    destruct (get_prop td "threats") as [f | m]; cbn in *.
    + split; [discriminate|].
      intros [H | [H | (b & [= <-] & H)]]; try discriminate H.
      rewrite H in T. discriminate T.
    + split; [|reflexivity]. intros _. right. right. exists td.
      split; [reflexivity | symmetry; exact T].
  - split; auto.
  - split; auto.
  - split; auto.
Qed.

Lemma cycle_failed_iff_witness :
  cycle_failed {| threatsRes := Fulfilled VNull;
                  summaryRes := Fulfilled VNull;
                  summaryFirst := false |} = true
  /\ cycle_failed {| threatsRes := Fulfilled (VStr "<html>");
                     summaryRes := Fulfilled VNull;
                     summaryFirst := false |} = false.
Proof.
  split.
  - apply (proj2 (cycle_failed_iff _)). right. right. exists VNull.
    split; reflexivity.
  - reflexivity.
Defined.

(** The slots after a successful cycle has been reconciled. *)
Lemma reconcile_succeeded (o : settlement) :
  cycle_failed o = false ->
  exists t sm, forall s,
    reconcile_state o s =
      {| threats := t; summary := sm; loading := false; error := error s |}.
Proof.
  intros H. destruct (resume_succeeded o H) as (td & sd & f & _ & _ & _ & E).
  exists (js_or f (VArr [])), (js_or sd (VObj [])). intros s.
  unfold reconcile_state. rewrite E. reflexivity.
Qed.

(** X5.  What a successful cycle stores does not depend on the state it is
    reconciled into: when cycles overlap, the data on the page is that
    of the cycle that settled last, also when that cycle was started
    first. *)
Theorem last_settlement_wins (older newer : settlement) (s : state) :
  cycle_failed older = false ->
  threats (reconcile_state older (reconcile_state newer s))
  = threats (reconcile_state older s)
  /\ summary (reconcile_state older (reconcile_state newer s))
     = summary (reconcile_state older s)
  /\ loading (reconcile_state older (reconcile_state newer s)) = false
  /\ error (reconcile_state older (reconcile_state newer s))
     = error (reconcile_state newer s).
Proof.
  intros H. destruct (reconcile_succeeded older H) as (t & sm & E).
  rewrite !E. repeat split.
Qed.

Lemma last_settlement_wins_witness :
  cycle_failed Samples.all_quiet = false
  /\ threats (reconcile_state Samples.all_quiet
                (reconcile_state Samples.both_up initial_state)) = VArr [].
Proof.
  split; [reflexivity|].
  destruct (last_settlement_wins Samples.all_quiet Samples.both_up
              initial_state eq_refl) as (T & _).
  rewrite T. reflexivity.
Defined.

(** ** What is on the page while a cycle is in flight *)

(** X6.  Right after a dispatch the presenter shows the loading placeholder
    when the stored threat list is empty, whatever the summary holds,
    and the dashboard of the stored data otherwise.  In particular the
    data that a failure had hidden behind the error view is displayed
    again as soon as the next cycle starts. *)
Theorem view_while_in_flight
    (h : host) (now : Z) (s : state) (o : settlement) (items : list value) :
  threats s = VArr items ->
  cycle_failed o = true ->
  App h now (dispatch_state s)
  = (if is_empty_array (threats s) then Ok loading_view
     else dashboard h now (dispatch_state s))
  /\ App h now (reconcile_state o s) = Ok (error_view (error (reconcile_state o s)))
  /\ dispatch_state (reconcile_state o s) = dispatch_state s.
Proof.
  intros Ht Hf.
  split.
  { unfold App. rewrite dispatch_state_eq. cbn [error loading threats truthy].
    rewrite Ht. destruct items; reflexivity. }
  destruct (reconcile_failed o s Hf) as [m E]. rewrite E.
  split; reflexivity.
Qed.

Lemma view_while_in_flight_witness :
  App SampleHost.en_US_UTC 0
    (dispatch_state (reconcile_state Samples.summary_down
                       Samples.after_good_cycle))
  = dashboard SampleHost.en_US_UTC 0
      {| threats := VArr [Samples.port_scan];
         summary := Samples.summary_payload;
         loading := true; error := VNull |}.
Proof.
  destruct (view_while_in_flight SampleHost.en_US_UTC 0
              Samples.after_good_cycle Samples.summary_down
              [Samples.port_scan] eq_refl eq_refl) as (A & _ & D).
  rewrite D. exact A.
Defined.

(** ** The threat cards, lines 113-146 *)

Lemma get_prop_ok (v : value) (k : string) :
  nullish v = false -> exists x, get_prop v k = Ok x.
Proof.
  intros H. pose proof (get_prop_throws v k) as T. rewrite H in T.
  destruct (get_prop v k) as [x | m]; [eauto | discriminate T].
Qed.

Lemma Object_entries_ok (v : value) :
  truthy v = true -> exists entries, Object_entries v = Ok entries.
Proof.
  destruct v as [ | | b | n | s | items | fields]; cbn; intros H;
    try discriminate H; eauto.
Qed.

Lemma details_block_ok (t : value) :
  nullish t = false ->
  exists details,
    get_prop t "details" = Ok details
    /\ ((truthy details = false /\ details_block t = Ok (EVal details))
        \/ (truthy details = true
            /\ exists entries,
                 Object_entries details = Ok entries
                 /\ details_block t
                    = Ok (EElem "div" details_style
                            [EList (map detail_row entries)]))).
Proof.
  intros H. destruct (get_prop_ok t "details" H) as [d E].
  exists d. split; [exact E|]. unfold details_block. rewrite E. cbn [bind].
  destruct (truthy d) eqn:T.
  - right. split; [reflexivity|].
    destruct (Object_entries_ok d T) as [entries Eo]. exists entries.
    rewrite Eo. split; reflexivity.
  - left. split; reflexivity.
Qed.

Lemma severity_checks (v : value) :
  (nullish v || is_string v = true ->
   exists c l, getSeverityColor v = Ok c /\ severity_text v = Ok (VStr l))
  /\ (nullish v || is_string v = false ->
      throws (getSeverityColor v) = true).
Proof.
  destruct v as [ | | b | n | s | items | fields]; split; intros H;
    cbn [nullish is_string orb] in H; try discriminate H;
    try reflexivity.
  - exists "#888888", "UNKNOWN". split; reflexivity.
  - exists "#888888", "UNKNOWN". split; reflexivity.
  - rewrite getSeverityColor_string. eexists.
    unfold severity_text, opt_call_case, js_or. cbn [bind truthy].
    destruct (negb (String.eqb (toUpperCase s) EmptyString));
      eexists; split; reflexivity.
Qed.

(** X9.  The callback of [threats.map] throws in exactly three cases:
    the array element is null or undefined, its [severity] is present
    and is not a string, or its [timestamp] cannot be converted to a
    primitive by [new Date].  Nothing else in a threat, whatever its
    [type], [description] or [details], makes the callback throw. *)
Theorem threat_card_throws (h : host) (t : value) :
  throws (threat_card h t)
  = negb (negb (nullish t)
          && field_is (fun v => nullish v || is_string v) t "severity"
          && field_is to_primitive_ok t "timestamp").
Proof.
  destruct (nullish t) eqn:N.
  { destruct t; try discriminate N; reflexivity. }
  cbn [negb andb]. unfold field_is.
  destruct (get_prop_ok t "severity" N) as [sev Es].
  destruct (get_prop_ok t "timestamp" N) as [ts Ets].
  destruct (get_prop_ok t "type" N) as [ty Ety].
  destruct (get_prop_ok t "description" N) as [de Ede].
  unfold threat_card, severity_label.
  rewrite Es, Ets, Ety, Ede. cbn [bind].
  destruct (severity_checks sev) as [Hok Hbad].
  destruct (nullish sev || is_string sev) eqn:S; cbn [negb andb].
  - destruct (Hok eq_refl) as (c & l & Ec & El). rewrite Ec, El. cbn [bind].
    unfold formatTimestamp.
    destruct (to_primitive_ok ts); cbn [bind negb]; [|reflexivity].
    destruct (details_block_ok t N)
      as (d & _ & [[_ Ed] | (_ & entries & _ & Ed)]);
      rewrite Ed; reflexivity.
  - specialize (Hbad eq_refl).
    destruct (getSeverityColor sev); [discriminate Hbad | reflexivity].
Qed.

Lemma mapM_Forall2 {A B : Type} (f : A -> result B) (l : list A)
    (r : list B) :
  mapM f l = Ok r -> Forall2 (fun a b => f a = Ok b) l r.
Proof.
  revert r. induction l as [|a l IH]; intros r H; cbn in H.
  - injection H as <-. constructor.
  - destruct (f a) as [b|] eqn:Ea; cbn [bind] in H; [|discriminate H].
    destruct (mapM f l) as [bs|]; cbn [bind] in H; [|discriminate H].
    injection H as <-. constructor; [exact Ea | apply IH; reflexivity].
Qed.

Lemma mapM_throws {A B : Type} (f : A -> result B) (l : list A) :
  throws (mapM f l) = existsb (fun a => throws (f a)) l.
Proof.
  induction l as [|a l IH]; [reflexivity|].
  cbn [mapM existsb]. destruct (f a) as [b|m]; cbn [bind throws orb].
  - rewrite <- IH. destruct (mapM f l); reflexivity.
  - reflexivity.
Qed.

Lemma summary_grid_ok (sm : value) : exists g, summary_grid sm = Ok g.
Proof.
  unfold summary_grid. destruct (truthy sm) eqn:T; [|eauto].
  assert (N : nullish sm = false) by (destruct sm; try discriminate T; reflexivity).
  destruct (get_prop_ok sm "total_threats" N) as [a ->].
  destruct (get_prop_ok sm "critical_threats" N) as [b ->].
  destruct (get_prop_ok sm "blocked_connections" N) as [c ->].
  destruct (get_prop_ok sm "monitored_processes" N) as [d ->].
  cbn [bind]. eauto.
Qed.

(** ** The threat list of the dashboard, lines 103-148 *)

(** X7.  With an empty threat list, building the dashboard never
    throws: the component returns the dashboard element, whose heading
    shows the count 0 and whose list is replaced by the banner. *)
Theorem empty_list_shows_banner (h : host) (now : Z) (s : state) :
  threats s = VArr [] ->
  exists header status grid,
    summary_grid (summary s) = Ok grid
    /\ dashboard h now s
       = Ok (EElem "div" page_style
               [header; status; grid; threats_heading (VNum 0); empty_banner]).
Proof.
  intros Ht. destruct (summary_grid_ok (summary s)) as [g Eg].
  unfold dashboard. rewrite Eg, Ht. cbn. eauto.
Qed.

Lemma empty_list_shows_banner_witness :
  exists header status grid,
    dashboard SampleHost.en_US_UTC 0
      (reconcile_state Samples.all_quiet initial_state)
    = Ok (EElem "div" page_style
            [header; status; grid; threats_heading (VNum 0); empty_banner]).
Proof.
  destruct (empty_list_shows_banner SampleHost.en_US_UTC 0
              (reconcile_state Samples.all_quiet initial_state) eq_refl)
    as (a & b & g & _ & E).
  exists a, b, g. exact E.
Defined.

(** X8.  With a non-empty threat list the dashboard shows the number of
    threats in its heading and one card per threat, in the order of the
    payload: nothing is sorted, merged or dropped. *)
Theorem one_card_per_threat
    (h : host) (now : Z) (s : state) (items : list value) (e : element) :
  threats s = VArr items -> items <> [] ->
  dashboard h now s = Ok e ->
  exists header status grid cards,
    e = EElem "div" page_style
          [header; status; grid;
           threats_heading (VNum (Z.of_nat (List.length items)));
           card_list cards]
    /\ Forall2 (fun t card => threat_card h t = Ok card) items cards
    /\ List.length cards = List.length items.
Proof.
  intros Ht Hne H. unfold dashboard in H. rewrite Ht in H.
  destruct (summary_grid (summary s)) as [g|]; [|discriminate H].
  cbn [bind get_prop String.eqb Ascii.eqb Bool.eqb strict_eq_num] in H.
  destruct items as [|t r]; [contradiction|].
  replace (Z.of_nat (List.length (t :: r)) =? 0)%Z with false in H
    by (symmetry; apply Z.eqb_neq; cbn [List.length]; lia).
  cbn [threats_map] in H.
  destruct (mapM (threat_card h) (t :: r)) as [cards|] eqn:M;
    cbn [bind] in H; [|discriminate H].
  injection H as <-.
  exists (EElem "h1" [("color", "#00ff88"); ("marginBottom", "20px")]
            [EText "🛡️ Cybersecurity Threat Monitor"]).
  eexists. exists g, cards.
  pose proof (mapM_Forall2 _ _ _ M) as F.
  split; [reflexivity|]. split; [exact F|].
  symmetry. apply (Forall2_length F).
Qed.

Lemma one_card_per_threat_witness :
  exists e cards,
    dashboard SampleHost.en_US_UTC 0 Samples.after_good_cycle = Ok e
    /\ Forall2 (fun t card => threat_card SampleHost.en_US_UTC t = Ok card)
         [Samples.port_scan] cards.
Proof.
  pose (e := match dashboard SampleHost.en_US_UTC 0 Samples.after_good_cycle
             with
             | Ok e => e
             | Throw _ => EText EmptyString
             end).
  assert (E : dashboard SampleHost.en_US_UTC 0 Samples.after_good_cycle = Ok e)
    by reflexivity.
  assert (N : [Samples.port_scan] <> []) by discriminate.
  destruct (one_card_per_threat SampleHost.en_US_UTC 0
              Samples.after_good_cycle [Samples.port_scan] e eq_refl N E)
    as (a & b & g & cards & _ & F & _).
  exists e, cards. split; [exact E | exact F].
Defined.

(** X10.  The dashboard of a threat list throws exactly when the callback
    throws on one of the threats: one threat that is null, or whose
    severity is not a string, takes the whole page down, and nothing
    else in the dashboard can throw. *)
Theorem dashboard_throws_with_a_card
    (h : host) (now : Z) (s : state) (items : list value) :
  threats s = VArr items ->
  throws (dashboard h now s)
  = existsb (fun t => throws (threat_card h t)) items.
Proof.
  intros Ht. destruct (summary_grid_ok (summary s)) as [g Eg].
  unfold dashboard. rewrite Eg, Ht.
  cbn [bind get_prop String.eqb Ascii.eqb Bool.eqb strict_eq_num].
  destruct items as [|t r]; [reflexivity|].
  replace (Z.of_nat (List.length (t :: r)) =? 0)%Z with false
    by (symmetry; apply Z.eqb_neq; cbn [List.length]; lia).
  cbn [threats_map]. rewrite <- mapM_throws.
  destruct (mapM (threat_card h) (t :: r)); reflexivity.
Qed.

Lemma dashboard_throws_with_a_card_witness :
  throws (dashboard SampleHost.en_US_UTC 0
            {| threats := VArr [Samples.port_scan; VNull];
               summary := VNull; loading := false; error := VNull |})
  = true.
Proof.
  rewrite (dashboard_throws_with_a_card SampleHost.en_US_UTC 0
             {| threats := VArr [Samples.port_scan; VNull];
                summary := VNull; loading := false; error := VNull |}
             [Samples.port_scan; VNull] eq_refl).
  reflexivity.
Defined.

Lemma string_length_zero (s : string) :
  String.eqb s EmptyString = false -> (Z.of_nat (String.length s) =? 0)%Z = false.
Proof.
  destruct s; [discriminate|]. intros _. apply Z.eqb_neq. cbn. lia.
Qed.

(** X11.  [threats] is stored as it comes whenever it is truthy.  If the
    service sends a number, a string or [true] there, the dashboard
    throws, since such a value has no [map] method. *)
Theorem scalar_threats_break_the_dashboard (h : host) (now : Z) (s : state) :
  scalar (threats s) = true -> truthy (threats s) = true ->
  dashboard h now s = Throw "threats.map is not a function"
  /\ (truthy (error s) = false ->
      App h now s = Throw "threats.map is not a function").
Proof.
  intros Hs Ht. destruct (summary_grid_ok (summary s)) as [g Eg].
  assert (D : dashboard h now s = Throw "threats.map is not a function").
  { unfold dashboard. rewrite Eg.
    destruct (threats s) as [ | | b | n | t | items | fields];
      try discriminate Hs; try discriminate Ht; cbn in Ht.
    - reflexivity.
    - reflexivity.
    - cbn [bind get_prop String.eqb Ascii.eqb Bool.eqb strict_eq_num].
      rewrite string_length_zero; [reflexivity|].
      destruct (String.eqb t EmptyString); [discriminate Ht | reflexivity]. }
  split; [exact D|]. intros He. unfold App. rewrite He, D.
  destruct (loading s); [|reflexivity].
  destruct (threats s) as [ | | b | n | t | items | fields];
    try discriminate Hs; try discriminate Ht; cbn in Ht; try reflexivity.
  cbn [bind get_prop String.eqb Ascii.eqb Bool.eqb strict_eq_num].
  rewrite string_length_zero; [reflexivity|].
  destruct (String.eqb t EmptyString); [discriminate Ht | reflexivity].
Qed.

Lemma scalar_threats_break_the_dashboard_witness :
  threats (reconcile_state
             {| threatsRes := Fulfilled (VObj [("threats", VStr "none")]);
                summaryRes := Fulfilled (VObj []);
                summaryFirst := false |} initial_state) = VStr "none"
  /\ dashboard SampleHost.en_US_UTC 0
       (reconcile_state
          {| threatsRes := Fulfilled (VObj [("threats", VStr "none")]);
             summaryRes := Fulfilled (VObj []);
             summaryFirst := false |} initial_state)
     = Throw "threats.map is not a function".
Proof.
  split; [reflexivity|].
  destruct (scalar_threats_break_the_dashboard SampleHost.en_US_UTC 0
              (reconcile_state
                 {| threatsRes := Fulfilled (VObj [("threats", VStr "none")]);
                    summaryRes := Fulfilled (VObj []);
                    summaryFirst := false |} initial_state)
              eq_refl eq_refl) as [D _].
  exact D.
Defined.

(** ** The details block, lines 136-144 *)

Lemma child_of_string (s : string) : child_of_value (VStr s) = Ok (text_nodes s).
Proof.
  unfold text_nodes. cbn [child_of_value].
  destruct (String.eqb s EmptyString); reflexivity.
Qed.

Lemma child_of_stringified (v : value) :
  child_of_value (stringify_value v) = Ok (json_nodes v).
Proof.
  unfold stringify_value, json_nodes.
  destruct (JSON_stringify v) as [j|]; [apply child_of_string | reflexivity].
Qed.

Lemma reconcile_detail_row (kv : string * value) :
  reconcile (detail_row kv) = Ok [detail_row_node kv].
Proof.
  unfold detail_row, detail_row_node. rewrite reconcile_EElem.
  cbn [reconcile_all]. rewrite reconcile_EElem. cbn [reconcile_all reconcile].
  rewrite child_of_string, child_of_stringified. cbn [bind app].
  rewrite !app_nil_r. reflexivity.
Qed.

Lemma reconcile_detail_rows (entries : list (string * value)) :
  reconcile_all (map detail_row entries) = Ok (map detail_row_node entries).
Proof.
  induction entries as [|kv r IH]; [reflexivity|].
  cbn [map reconcile_all]. rewrite reconcile_detail_row, IH. reflexivity.
Qed.

(** X12.  A truthy [details] that is not a string and whose numbers
    are safe integers gives a details block with one row per entry of
    [Object.entries(details)], in that order, each row made of the key,
    a colon and the JSON text of the value; for an object the entries
    are its fields.  The values may be nested objects and arrays: they
    are serialised, so they never make the card throw. *)
Theorem details_rows (t details : value) :
  get_prop t "details" = Ok details -> truthy details = true ->
  is_string details = false -> numbers_safe details = true ->
  exists entries,
    Object_entries details = Ok entries
    /\ (forall fields, details = VObj fields -> entries = fields)
    /\ (e <- details_block t ;; reconcile e)
       = Ok [Elem "div" details_style (map detail_row_node entries)].
Proof.
  intros E T _ _. destruct (Object_entries_ok details T) as [entries Eo].
  exists entries. split; [exact Eo|]. split.
  { intros fields ->. cbn in Eo. injection Eo as <-. reflexivity. }
  unfold details_block. rewrite E. cbn [bind]. rewrite T, Eo. cbn [bind].
  rewrite reconcile_EElem. cbn [reconcile_all].
  rewrite reconcile_EList, reconcile_detail_rows. cbn [bind app].
  rewrite app_nil_r. reflexivity.
Qed.

Lemma details_rows_witness :
  (e <- details_block
          (VObj [("details",
                  VObj [("port", VNum 22);
                        ("hosts", VArr [VStr "a"; VStr "b"])])]) ;;
   reconcile e)
  = Ok [Elem "div" details_style
          [detail_row_node ("port", VNum 22);
           detail_row_node ("hosts", VArr [VStr "a"; VStr "b"])]].
Proof.
  destruct (details_rows
              (VObj [("details",
                      VObj [("port", VNum 22);
                            ("hosts", VArr [VStr "a"; VStr "b"])])])
              (VObj [("port", VNum 22);
                     ("hosts", VArr [VStr "a"; VStr "b"])])
              eq_refl eq_refl eq_refl eq_refl) as (entries & Eo & _ & R).
  cbn in Eo. injection Eo as <-. exact R.
Defined.

(** ** The summary counters, lines 84-99 *)



(** ** The severity badge, line 124 *)





(** ** Rendering never throws on the data model *)

Lemma scalar_child_ok (v : value) :
  scalar v = true -> exists ns, child_of_value v = Ok ns.
Proof.
  destruct v as [ | | b | n | s | items | fields]; cbn; intros H;
    try discriminate H; eauto.
  destruct (String.eqb s EmptyString); eauto.
Qed.

Lemma falsy_is_scalar (v : value) : truthy v = false -> scalar v = true.
Proof. destruct v; cbn; intros H; try discriminate H; reflexivity. Qed.

Lemma details_nodes_ok (t : value) :
  nullish t = false ->
  exists e ns, details_block t = Ok e /\ reconcile e = Ok ns.
Proof.
  intros N.
  destruct (details_block_ok t N)
    as (d & Ed & [[T E] | (T & entries & Eo & E)]).
  - destruct (scalar_child_ok d (falsy_is_scalar d T)) as [ns Hns].
    exists (EVal d), ns. split; [exact E | exact Hns].
  - exists (EElem "div" details_style [EList (map detail_row entries)]).
    eexists. split; [exact E|].
    rewrite reconcile_EElem. cbn [reconcile_all].
    rewrite reconcile_EList, reconcile_detail_rows. cbn [bind]. reflexivity.
Qed.

Lemma field_is_inv (p : value -> bool) (v : value) (k : string) :
  field_is p v k = true -> exists x, get_prop v k = Ok x /\ p x = true.
Proof.
  unfold field_is. destruct (get_prop v k) as [x|]; [eauto | discriminate].
Qed.

Lemma card_nodes_ok (h : host) (t : value) :
  threat_ok t = true -> exists ns, card_nodes h t = Ok ns.
Proof.
  unfold threat_ok. intros H.
  apply andb_prop in H. destruct H as [H Hde].
  apply andb_prop in H. destruct H as [H Hty].
  apply andb_prop in H. destruct H as [H Hts].
  apply andb_prop in H. destruct H as [N Hsev].
  apply negb_true_iff in N.
  destruct (field_is_inv _ _ _ Hsev) as (sev & Es & Ps).
  destruct (field_is_inv _ _ _ Hts) as (ts & Ets & Pts).
  destruct (field_is_inv _ _ _ Hty) as (ty & Ety & Pty).
  destruct (field_is_inv _ _ _ Hde) as (de & Ede & Pde).
  destruct (proj1 (severity_checks sev) Ps) as (c & l & Ec & El).
  destruct (details_nodes_ok t N) as (d & nd & Ed & Rd).
  destruct (scalar_child_ok ty Pty) as [nty Cty].
  destruct (scalar_child_ok de Pde) as [nde Cde].
  unfold card_nodes, threat_card, severity_label, formatTimestamp.
  rewrite Es, Ets, Ety, Ede. cbn [bind]. rewrite Ec, El, Pts, Ed. cbn [bind].
  rewrite reconcile_EElem. cbn [reconcile_all].
  rewrite !reconcile_EElem. cbn [reconcile_all reconcile].
  rewrite !child_of_string, Cty, Cde, Rd. cbn [bind]. eauto.
Qed.

Lemma cards_ok (h : host) (items : list value) :
  forallb threat_ok items = true ->
  exists cards ns,
    mapM (threat_card h) items = Ok cards /\ reconcile_all cards = Ok ns.
Proof.
  induction items as [|t r IH]; cbn [forallb].
  - intros _. exists [], []. split; reflexivity.
  - intros H. apply andb_prop in H. destruct H as [Ht Hr].
    destruct (card_nodes_ok h t Ht) as [nt Ct].
    destruct (IH Hr) as (cards & ns & M & R).
    unfold card_nodes in Ct.
    destruct (threat_card h t) as [c|] eqn:Ec; [|discriminate Ct].
    cbn [bind] in Ct.
    exists (c :: cards), (nt ++ ns). cbn [mapM reconcile_all].
    rewrite Ec, M, Ct, R. split; reflexivity.
Qed.

Lemma grid_nodes_ok (sm : value) :
  summary_ok sm = true -> exists ns, grid_nodes sm = Ok ns.
Proof.
  unfold summary_ok, grid_nodes, summary_grid.
  destruct (truthy sm) eqn:T; cbn [negb orb bind].
  - intros H.
    apply andb_prop in H. destruct H as [H H4].
    apply andb_prop in H. destruct H as [H H3].
    apply andb_prop in H. destruct H as [H1 H2].
    destruct (field_is_inv _ _ _ H1) as (a & Ea & Pa).
    destruct (field_is_inv _ _ _ H2) as (b & Eb & Pb).
    destruct (field_is_inv _ _ _ H3) as (c & Ec & Pc).
    destruct (field_is_inv _ _ _ H4) as (d & Ed & Pd).
    rewrite Ea, Eb, Ec, Ed. cbn [bind].
    assert (K : forall v, scalar v = true ->
                          exists ns, child_of_value (js_or v (VNum 0)) = Ok ns).
    { intros v P. unfold js_or.
      destruct (truthy v); [apply scalar_child_ok, P | eexists; reflexivity]. }
    destruct (K a Pa) as [na Ca]. destruct (K b Pb) as [nb Cb].
    destruct (K c Pc) as [nc Cc]. destruct (K d Pd) as [nd Cd].
    unfold counter_cell. rewrite reconcile_EElem. cbn [reconcile_all].
    rewrite !reconcile_EElem. cbn [reconcile_all reconcile].
    rewrite Ca, Cb, Cc, Cd. cbn [bind]. eauto.
  - intros _. cbn [reconcile]. apply scalar_child_ok, falsy_is_scalar, T.
Qed.

(** Rewrites the reconciliation of a written-out element tree into the
    reconciliation of its leaves. *)
Ltac reconcile_tree :=
  repeat first [ rewrite reconcile_EElem
               | rewrite reconcile_EList
               | progress cbn [reconcile_all bind] ].

(** X15.  On a state of the data model the presenter never throws, neither in
    the component nor in React: every threat is a non-null value whose
    severity is absent or a string, whose timestamp converts to a
    primitive and whose type and description are not objects or arrays,
    every counter of a non-null summary is absent or not an object or
    array, and [error] is null or a string.  Details are
    unconstrained. *)
Theorem render_total_on_data_model (h : host) (now : Z) (s : state) :
  state_ok s = true -> exists page, render h now s = Ok page.
Proof.
  unfold state_ok. intros H.
  apply andb_prop in H. destruct H as [H He].
  apply andb_prop in H. destruct H as [Ht Hs].
  destruct (threats s) as [ | | b | n | t | items | fields] eqn:Eth;
    try discriminate Ht.
  unfold render, App.
  destruct (truthy (error s)) eqn:Te.
  { cbn [bind]. unfold error_view. rewrite reconcile_EElem.
    cbn [reconcile_all]. rewrite !reconcile_EElem.
    cbn [reconcile_all reconcile].
    destruct (scalar_child_ok (error s) He) as [ne Ce]. rewrite Ce.
    rewrite child_of_string. cbn [bind]. eexists. reflexivity. }
  assert (D : exists page, (e <- dashboard h now s ;; reconcile e) = Ok page).
  { destruct (grid_nodes_ok (summary s) Hs) as [ng Gn].
    unfold grid_nodes in Gn.
    destruct (summary_grid (summary s)) as [g|] eqn:Eg; [|discriminate Gn].
    cbn [bind] in Gn.
    destruct (cards_ok h items Ht) as (cards & ns & M & R).
    unfold dashboard. rewrite Eg, Eth.
    cbn [bind get_prop String.eqb Ascii.eqb Bool.eqb strict_eq_num].
    destruct (Z.of_nat (List.length items) =? 0)%Z.
    - cbn [bind]. unfold empty_banner.
      destruct (loading s); reconcile_tree;
        rewrite ?Gn, ?child_of_string; cbn [reconcile bind];
        rewrite ?Gn, ?child_of_string; cbn [bind child_of_value];
        eexists; reflexivity.
    - cbn [threats_map]. rewrite M. cbn [bind].
      destruct (loading s); reconcile_tree;
        rewrite ?Gn, ?R, ?child_of_string; cbn [reconcile bind];
        rewrite ?Gn, ?R, ?child_of_string; cbn [bind child_of_value];
        eexists; reflexivity. }
  rewrite Eth.
  destruct (loading s); cbn [bind get_prop String.eqb Ascii.eqb Bool.eqb
                             strict_eq_num].
  - destruct (Z.of_nat (List.length items) =? 0)%Z eqn:Z0.
    + eexists. reflexivity.
    + exact D.
  - exact D.
Qed.

Lemma render_total_on_data_model_witness :
  state_ok Samples.after_good_cycle = true
  /\ exists page, render SampleHost.en_US_UTC 0 Samples.after_good_cycle
                  = Ok page.
Proof.
  split; [reflexivity|].
  apply (render_total_on_data_model SampleHost.en_US_UTC 0
           Samples.after_good_cycle eq_refl).
Defined.

(** ** Invariants of the slots *)

Lemma slots_invariant_dispatch (s : state) :
  slots_invariant s -> slots_invariant (dispatch_state s).
Proof.
  intros (He & Hs & Ht & Hn). rewrite dispatch_state_eq.
  unfold slots_invariant. cbn [error summary threats loading].
  split; [left; reflexivity|]. split; [exact Hs|]. split; [exact Ht|].
  intros Hq. split; [apply (Hn Hq) | left; reflexivity].
Qed.

Lemma slots_invariant_reconcile (o : settlement) (s : state) :
  slots_invariant s -> slots_invariant (reconcile_state o s).
Proof.
  intros (He & Hs & Ht & Hn).
  destruct (cycle_failed o) eqn:F.
  - destruct (reconcile_failed o s F) as [m ->].
    unfold slots_invariant. cbn [error summary threats loading].
    split; [right; exists m; reflexivity|].
    split; [exact Hs|]. split; [exact Ht|].
    intros Hq. split; [apply (Hn Hq) | right; reflexivity].
  - destruct (resume_succeeded o F) as (td & sd & f & _ & _ & _ & E).
    unfold reconcile_state. rewrite E.
    unfold slots_invariant.
    cbn [fst apply_calls fold_left apply_call error summary threats loading].
    assert (Tq : truthy (js_or sd (VObj [])) = true)
      by apply js_or_object_truthy.
    split; [exact He|]. split; [right; exact Tq|].
    split.
    + unfold js_or. destruct (truthy f) eqn:Tf; [exact Tf | reflexivity].
    + intros Hq. rewrite Hq in Tq. discriminate Tq.
Qed.

Lemma slots_invariant_run (es : list event) (w w' : world) :
  slots_invariant (ui w) -> run es w = Some w' -> slots_invariant (ui w').
Proof.
  revert w. induction es as [|e es IH]; intros w Hw; cbn [run].
  - intros [= <-]. exact Hw.
  - destruct (step e w) as [w1|] eqn:S1; [|discriminate].
    apply IH.
    destruct (step_ui e w w1 S1) as [U | [U | (o & _ & U)]]; rewrite U.
    + exact Hw.
    + apply slots_invariant_dispatch, Hw.
    + apply slots_invariant_reconcile, Hw.
Qed.

(** X16.  At every moment of the component's life, whatever the service
    answers: [error] is null or a message with the failure prefix,
    [summary] is null or truthy, [threats] is truthy; and when the
    service honours its contract [threats] is an array. *)
Theorem slots_keep_their_shape (es : list event) (w : world) :
  run es initial_world = Some w ->
  (error (ui w) = VNull \/ failure_message (error (ui w)))
  /\ (summary (ui w) = VNull \/ truthy (summary (ui w)) = true)
  /\ truthy (threats (ui w)) = true
  /\ (Forall event_honours_contract es ->
      exists items, threats (ui w) = VArr items).
Proof.
  intros R.
  assert (I0 : slots_invariant (ui initial_world)).
  { unfold slots_invariant. cbn.
    split; [left; reflexivity|]. split; [left; reflexivity|].
    split; [reflexivity|]. intros _. split; [reflexivity | left; reflexivity]. }
  destruct (slots_invariant_run es initial_world w I0 R) as (He & Hs & Ht & _).
  repeat split; try assumption.
  intros Hc.
  destruct (well_formed_run es initial_world w well_formed_initial Hc R)
    as [Harr _].
  exact Harr.
Qed.

Lemma slots_keep_their_shape_witness :
  exists w,
    run [Mount; Settle Samples.summary_down; Tick; Settle Samples.both_up]
        initial_world = Some w
    /\ truthy (threats (ui w)) = true.
Proof.
  pose (w := match run [Mount; Settle Samples.summary_down; Tick;
                        Settle Samples.both_up] initial_world with
             | Some w => w
             | None => initial_world
             end).
  exists w.
  assert (R : run [Mount; Settle Samples.summary_down; Tick;
                   Settle Samples.both_up] initial_world = Some w)
    by (vm_compute; reflexivity).
  destruct (slots_keep_their_shape _ w R) as (_ & _ & T & _).
  split; [exact R | exact T].
Defined.

(** X17.  As long as no cycle has succeeded, so that [summary] is still null,
    the presenter returns the error view or the loading placeholder,
    never the dashboard.  The dashboard therefore never appears without
    its summary grid: the branch of line 82 that omits the grid is not
    taken on any page the component displays. *)
Theorem dashboard_never_without_summary
    (es : list event) (w : world) (h : host) (now : Z) :
  run es initial_world = Some w ->
  summary (ui w) = VNull ->
  App h now (ui w) = Ok (error_view (error (ui w)))
  \/ App h now (ui w) = Ok loading_view.
Proof.
  intros R Hn.
  assert (I0 : slots_invariant (ui initial_world)).
  { unfold slots_invariant. cbn.
    split; [left; reflexivity|]. split; [left; reflexivity|].
    split; [reflexivity|]. intros _. split; [reflexivity | left; reflexivity]. }
  destruct (slots_invariant_run es initial_world w I0 R) as (_ & _ & _ & Hk).
  destruct (Hk Hn) as (Ht & Hl).
  unfold App. destruct (truthy (error (ui w))) eqn:Te; [left; reflexivity|].
  destruct Hl as [Hl | Hl]; [|discriminate Hl].
  right. rewrite Hl, Ht. reflexivity.
Qed.

Lemma dashboard_never_without_summary_witness :
  exists w,
    run [Mount; Settle Samples.summary_down; Tick] initial_world = Some w
    /\ App SampleHost.en_US_UTC 0 (ui w) = Ok loading_view.
Proof.
  pose (w := match run [Mount; Settle Samples.summary_down; Tick]
                       initial_world with
             | Some w => w
             | None => initial_world
             end).
  exists w.
  assert (R : run [Mount; Settle Samples.summary_down; Tick] initial_world
              = Some w)
    by (vm_compute; reflexivity).
  split; [exact R|].
  destruct (dashboard_never_without_summary _ w SampleHost.en_US_UTC 0 R
              eq_refl) as [H | H]; [discriminate H | exact H].
Defined.

(** ** C8: after teardown *)




